(** * p4317q: frame codec, reply validation and property access

    A shallow embedding of [p4317q.py], the serial-line controller of the
    DELL P4317Q monitor, and the properties of its frame codec
    ([__calc_check_sum], [__build_cmd], [__parse_reply]), of its exchange
    ([query]) and of its generic property access ([set_value], [get_value]).

    Python [bytes] are lists of integers, each in [0, 256).  Exceptions are
    values of [exn]; a function that may raise returns a [result].  Methods
    that talk to the serial port run in the monad [M], which threads the
    port through the call and keeps what was written when an exception
    propagates. *)

From Stdlib Require Import ZArith List Bool String Lia.
Import ListNotations.
Open Scope string_scope.
Open Scope list_scope.
Open Scope Z_scope.

(** ** Exceptions and results *)

(** The exception classes of the module (the nine subclasses of
    [P4317qError]) and the built-in exceptions the modelled code can raise. *)
Inductive exn : Type :=
| HeaderError
| ChecksumError
| UnsupportedCommand
| ParameterOverRange
| ExtraParameter
| FormatError
| LengthError
| ResultCodeError (code : Z)
| CommandError
| ValueError
| IndexError
| KeyError
| OverflowError
| TypeError
| AttributeError
| NameError.

Inductive result (A : Type) : Type :=
| Ok (a : A)
| Raise (e : exn).

Arguments Ok {A} a.
Arguments Raise {A} e.

Definition rbind {A B} (r : result A) (k : A -> result B) : result B :=
  match r with
  | Ok a => k a
  | Raise e => Raise e
  end.

Declare Scope py_scope.
Delimit Scope py_scope with py.
Open Scope py_scope.

Notation "x <- r ;; k" := (rbind r (fun x => k))
  (at level 61, r at next level, right associativity) : py_scope.

(** [if c: raise e] followed by the rest of the body. *)
Notation "'when' c 'raise' e ;; k" := (if c then Raise e else k)
  (at level 61, c at next level, e at next level, right associativity) : py_scope.

(** ** Bytes, slices and integer conversions *)

Definition bytes := list Z.

Definition byteb (b : Z) : bool := (0 <=? b) && (b <? 256).

(** The values of Python's [bytes] type. *)
Definition is_bytes (v : bytes) : Prop := forallb byteb v = true.

Fixpoint bytes_eqb (a b : bytes) : bool :=
  match a, b with
  | [], [] => true
  | x :: a', y :: b' => (x =? y) && bytes_eqb a' b'
  | _, _ => false
  end.

Definition len {A} (l : list A) : Z := Z.of_nat (List.length l).

(** A slice bound as Python normalises it: a negative bound counts from the
    end, and both are clamped to [0, len]. *)
Definition clamp (n i : Z) : Z :=
  if i <? 0 then Z.max 0 (i + n) else Z.min i n.

(** [l[i:j]] *)
Definition slice {A} (l : list A) (i j : Z) : list A :=
  let a := clamp (len l) i in
  let b := clamp (len l) j in
  firstn (Z.to_nat (b - a)) (skipn (Z.to_nat a) l).

(** [l[i]], with Python's negative indices and its [IndexError]. *)
Definition getitem {A} (l : list A) (i : Z) : result A :=
  let j := if i <? 0 then i + len l else i in
  if j <? 0 then Raise IndexError
  else match nth_error l (Z.to_nat j) with
       | Some x => Ok x
       | None => Raise IndexError
       end.

(** [int.from_bytes(v, 'big')] *)
Definition int_from_bytes (v : bytes) : Z :=
  fold_left (fun acc b => acc * 256 + b) v 0.

Fixpoint big_endian (n : nat) (v : Z) : bytes :=
  match n with
  | O => []
  | S k => big_endian k (v / 256) ++ [v mod 256]
  end.

(** [v.to_bytes(n, 'big')]: [OverflowError] for a negative [v] and for one
    that does not fit in [n] bytes. *)
Definition to_bytes (v : Z) (n : nat) : result bytes :=
  when (v <? 0) raise OverflowError ;;
  when (256 ^ Z.of_nat n <=? v) raise OverflowError ;;
  Ok (big_endian n v).

(** ** Enumerations

    A member of a Python [Enum] carries the name of its class, its own name
    and its value; a class is the list of its members in definition order,
    which is what [list(cls)] yields. *)
Record Enum : Type := mkEnum { cls : string; name : string; value : bytes }.

Definition Enum_eqb (a b : Enum) : bool :=
  String.eqb (cls a) (cls b) && String.eqb (name a) (name b)
  && bytes_eqb (value a) (value b).

Module Header.
Definition Command := mkEnum "Header" "Command" [0x37; 0x51].
Definition Reply := mkEnum "Header" "Reply" [0x6f; 0x37].
Definition members := [Command; Reply].
End Header.

Module ReadWrite.
Definition Read := mkEnum "ReadWrite" "Read" [0xeb].
Definition Write := mkEnum "ReadWrite" "Write" [0xea].
Definition members := [Read; Write].
End ReadWrite.

Module Command.
Definition mk := mkEnum "Command".
(* MONITOR MANAGEMENT *)
Definition AssertTag := mk "AssertTag" [0x00].
Definition MonitorName := mk "MonitorName" [0x01].
Definition MonitorSerialNumber := mk "MonitorSerialNumber" [0x02].
Definition BacklightHours := mk "BacklightHours" [0x04].
(* POWER MANAGEMENT *)
Definition PowerState := mk "PowerState" [0x20].
Definition PowerLED := mk "PowerLED" [0x21].
Definition PowerUSB := mk "PowerUSB" [0x22].
Definition ResetPower := mk "ResetPower" [0x2f].
(* IMAGE ADJUSTMENT *)
Definition Brightness := mk "Brightness" [0x30].
Definition Contrast := mk "Contrast" [0x31].
Definition AspectRatio := mk "AspectRatio" [0x33].
Definition Sharpness := mk "Sharpness" [0x34].
(* COLOR MANAGEMENT *)
Definition InputColorFormat := mk "InputColorFormat" [0x46].
Definition ColorPresetCaps := mk "ColorPresetCaps" [0x47].
Definition ColorPreset := mk "ColorPreset" [0x48].
Definition CustomColor := mk "CustomColor" [0x49].
Definition ResetColor := mk "ResetColor" [0x4f].
(* VIDEO INPUT MANAGEMENT *)
Definition AutoSelect := mk "AutoSelect" [0x60].
Definition VideoInputCaps := mk "VideoInputCaps" [0x61].
Definition VideoInput := mk "VideoInput" [0x62].
(* PIP/PBP MANAGEMENT *)
Definition PxPMode := mk "PxPMode" [0x70].
Definition PxPSubInput := mk "PxPSubInput" [0x71].
Definition PxPLocation := mk "PxPLocation" [0x72].
(* OSD MANAGEMENT *)
Definition OSDTransparency := mk "OSDTransparency" [0x80].
Definition OSDLanguage := mk "OSDLanguage" [0x81].
Definition OSDTimer := mk "OSDTimer" [0x83].
Definition OSDButtonLock := mk "OSDButtonLock" [0x84].
Definition ResetOSD := mk "ResetOSD" [0x8f].
(* SYSTEM MANAGEMENT *)
Definition VersionFirmware := mk "VersionFirmware" [0xa0].
Definition DDCCI := mk "DDCCI" [0xa2].
Definition LCDConditioning := mk "LCDConditioning" [0xa3].
Definition FactoryReset := mk "FactoryReset" [0xaf].
Definition members :=
    [AssertTag; MonitorName; MonitorSerialNumber; BacklightHours;
     PowerState; PowerLED; PowerUSB; ResetPower;
     Brightness; Contrast; AspectRatio; Sharpness;
     InputColorFormat; ColorPresetCaps; ColorPreset; CustomColor; ResetColor;
     AutoSelect; VideoInputCaps; VideoInput;
     PxPMode; PxPSubInput; PxPLocation;
     OSDTransparency; OSDLanguage; OSDTimer; OSDButtonLock; ResetOSD;
     VersionFirmware; DDCCI; LCDConditioning; FactoryReset].
End Command.

(** [search_func]'s stand-in for a command: any object with a [value]. *)
Definition FakeCommand (v : bytes) : Enum := mkEnum "FakeCommand" EmptyString v.

Module ResultCode.
Definition Success := mkEnum "ResultCode" "Success" [0x00].
Definition Timeout := mkEnum "ResultCode" "Timeout" [0x01].
Definition ParametersError := mkEnum "ResultCode" "ParametersError" [0x02].
Definition NotConnected := mkEnum "ResultCode" "NotConnected" [0x03].
Definition OtherFailure := mkEnum "ResultCode" "OtherFailure" [0x04].
Definition members := [Success; Timeout; ParametersError; NotConnected; OtherFailure].
End ResultCode.

(** ** Frame codec *)

(** [__calc_check_sum]: the XOR of the bytes of [v], as one byte. *)
Definition calc_check_sum (v : bytes) : result bytes :=
  let s := fold_left (fun s i => Z.lxor s i) v 0 in
  to_bytes s 1.

(** [__build_cmd] *)
Definition build_cmd (rw cmd : Enum) (data : bytes) : result bytes :=
  let c := [] in
  (* Add Header *)
  let c := c ++ value Header.Command in
  (* Add Length *)
  l <- to_bytes (len (value rw) + len (value cmd) + len data) 1 ;;
  let c := c ++ l in
  (* Add Read/Write *)
  let c := c ++ value rw in
  (* Add Command *)
  let c := c ++ value cmd in
  (* Add Data *)
  let c := c ++ data in
  (* Add CheckSum *)
  s <- calc_check_sum c ;;
  Ok (c ++ s).

(** [__parse_reply] *)
Definition parse_reply (cmd : Enum) (reply : bytes) : result (option bytes) :=
  (* Check header *)
  when negb (bytes_eqb (slice reply 0 2) (value Header.Reply)) raise HeaderError ;;
  (* Check Length *)
  let ln := int_from_bytes (slice reply 2 3) in
  when negb (ln =? len reply - 4) raise LengthError ;;
  (* Check Reply *)
  when negb (bytes_eqb (slice reply 3 4) [0x02]) raise FormatError ;;
  (* Check Result Code *)
  when negb (bytes_eqb (slice reply 4 5) (value ResultCode.Success))
    raise ResultCodeError (int_from_bytes (slice reply 4 5)) ;;
  (* Check Command *)
  when negb (bytes_eqb (slice reply 5 6) (value cmd)) raise CommandError ;;
  (* Check Checksum *)
  sum <- calc_check_sum (slice reply 0 (ln + 3)) ;;
  when negb (bytes_eqb (slice reply (ln + 3) (ln + 4)) sum) raise ChecksumError ;;
  (* Return Data if exist *)
  Ok (if ln <? 4 then None else Some (slice reply 6 (ln + 3))).

(** ** Value enumerations and constants *)

Module DataLength.
(* POWER MANAGEMENT *)
Definition PowerState : nat := 1.
Definition PowerLED : nat := 1.
Definition PowerUSB : nat := 1.
(* IMAGE ADJUSTMENT *)
Definition Brightness : nat := 1.
Definition Contrast : nat := 1.
Definition AspectRatio : nat := 1.
Definition Sharpness : nat := 1.
(* COLOR MANAGEMENT *)
Definition InputColorFormat : nat := 1.
Definition ColorPreset : nat := 4.
Definition CustomColor : nat := 7.
(* VIDEO INPUT MANAGEMENT *)
Definition AutoSelect : nat := 1.
Definition VideoInput : nat := 4.
(* PIP/PBP MANAGEMENT *)
Definition PxPMode : nat := 1.
Definition PxPSubInput : nat := 4.
Definition PxPLocation : nat := 1.
(* OSD MANAGEMENT *)
Definition OSDTransparency : nat := 1.
Definition OSDLanguage : nat := 1.
Definition OSDTimer : nat := 1.
Definition OSDButtonLock : nat := 1.
(* SYSTEM MANAGEMENT *)
Definition DDCCI : nat := 1.
Definition LCDConditioning : nat := 1.
End DataLength.

Module State.
Definition Off := mkEnum "State" "Off" [0x00].
Definition On := mkEnum "State" "On" [0x01].
Definition members := [Off; On].
End State.

Module AspectRatio.
Definition AR_16_9 := mkEnum "AspectRatio" "AR_16_9" [0x00].
Definition AR_4_3 := mkEnum "AspectRatio" "AR_4_3" [0x02].
Definition AR_5_4 := mkEnum "AspectRatio" "AR_5_4" [0x04].
Definition members := [AR_16_9; AR_4_3; AR_5_4].
End AspectRatio.

Module ColorFormat.
Definition RGB := mkEnum "ColorFormat" "RGB" [0x00].
Definition YPbPr := mkEnum "ColorFormat" "YPbPr" [0x01].
Definition members := [RGB; YPbPr].
End ColorFormat.

Module ColorPreset.
Definition Standard := mkEnum "ColorPreset" "Standard" [0x01; 0x00; 0x00; 0x00].
Definition Paper := mkEnum "ColorPreset" "Paper" [0x10; 0x00; 0x00; 0x00].
Definition CustomColor := mkEnum "ColorPreset" "CustomColor" [0x80; 0x00; 0x00; 0x00].
Definition Warm := mkEnum "ColorPreset" "Warm" [0x00; 0x01; 0x00; 0x00].
Definition Cool := mkEnum "ColorPreset" "Cool" [0x00; 0x02; 0x00; 0x00].
Definition members := [Standard; Paper; CustomColor; Warm; Cool].
End ColorPreset.

Module VideoInput.
Definition HDMI1 := mkEnum "VideoInput" "HDMI1" [0x01; 0x00; 0x00; 0x00].
Definition HDMI2 := mkEnum "VideoInput" "HDMI2" [0x02; 0x00; 0x00; 0x00].
Definition DP1 := mkEnum "VideoInput" "DP1" [0x08; 0x00; 0x00; 0x00].
Definition DP2 := mkEnum "VideoInput" "DP2" [0x10; 0x00; 0x00; 0x00].
Definition VGA1 := mkEnum "VideoInput" "VGA1" [0x40; 0x00; 0x00; 0x00].
Definition members := [HDMI1; HDMI2; DP1; DP2; VGA1].
End VideoInput.

Module PxPMode.
Definition Off := mkEnum "PxPMode" "Off" [0x00].
Definition PIPSmall := mkEnum "PxPMode" "PIPSmall" [0x01].
Definition PIPLarge := mkEnum "PxPMode" "PIPLarge" [0x02].
Definition PBP2Windows := mkEnum "PxPMode" "PBP2Windows" [0x05].
Definition PBP3WindowsMode1 := mkEnum "PxPMode" "PBP3WindowsMode1" [0x06].
Definition PBP3WindowsMode2 := mkEnum "PxPMode" "PBP3WindowsMode2" [0x07].
Definition PBP4Windows := mkEnum "PxPMode" "PBP4Windows" [0x08].
Definition members :=
  [Off; PIPSmall; PIPLarge; PBP2Windows; PBP3WindowsMode1; PBP3WindowsMode2; PBP4Windows].
End PxPMode.

Module PxPLocation.
Definition TopRight := mkEnum "PxPLocation" "TopRight" [0x00].
Definition TopLeft := mkEnum "PxPLocation" "TopLeft" [0x01].
Definition BottomRight := mkEnum "PxPLocation" "BottomRight" [0x02].
Definition BottomLeft := mkEnum "PxPLocation" "BottomLeft" [0x03].
Definition members := [TopRight; TopLeft; BottomRight; BottomLeft].
End PxPLocation.

Module Window.
Definition Window1 := mkEnum "Window" "Window1" [0x00].
Definition Window2 := mkEnum "Window" "Window2" [0x01].
Definition Window3 := mkEnum "Window" "Window3" [0x02].
Definition Window4 := mkEnum "Window" "Window4" [0x03].
Definition members := [Window1; Window2; Window3; Window4].
End Window.

Module Language.
Definition English := mkEnum "Language" "English" [0x00].
Definition Spanish := mkEnum "Language" "Spanish" [0x01].
Definition French := mkEnum "Language" "French" [0x02].
Definition German := mkEnum "Language" "German" [0x03].
Definition Portuguese := mkEnum "Language" "Portuguese" [0x04].
Definition Russian := mkEnum "Language" "Russian" [0x05].
Definition Chinese := mkEnum "Language" "Chinese" [0x06].
Definition Japanese := mkEnum "Language" "Japanese" [0x07].
Definition members :=
  [English; Spanish; French; German; Portuguese; Russian; Chinese; Japanese].
End Language.

(** [UpDown]: [Next] and [Inc] are aliases of [Up], [Previous] and [Dec] of
    [Down], as members with an equal value are in a Python [Enum]. *)
Module UpDown.
Inductive t : Type := Up | Down.
Definition Next := Up.
Definition Inc := Up.
Definition Previous := Down.
Definition Dec := Down.
Definition value (ud : t) : Z :=
  match ud with
  | Up => 1
  | Down => -1
  end.
End UpDown.

(** The module's global names that denote an [Enum] class with [bytes]
    values: what [eval] finds when it is given the name of a class. *)
Definition enum_classes : list (string * list Enum) :=
  [("Header", Header.members); ("ReadWrite", ReadWrite.members);
   ("Command", Command.members); ("State", State.members);
   ("AspectRatio", AspectRatio.members); ("ColorFormat", ColorFormat.members);
   ("ColorPreset", ColorPreset.members); ("VideoInput", VideoInput.members);
   ("PxPMode", PxPMode.members); ("PxPLocation", PxPLocation.members);
   ("Window", Window.members); ("Language", Language.members);
   ("ResultCode", ResultCode.members)].

Definition lookup_class (n : string) : result (list Enum) :=
  match find (fun c => String.eqb (fst c) n) enum_classes with
  | Some c => Ok (snd c)
  | None => Raise NameError
  end.

(** [cls(x)] for the result [x] of [query]: the member whose value is [x];
    [ValueError] when there is none, and for [None]. *)
Definition enum_call (members : list Enum) (x : option bytes) : result Enum :=
  match x with
  | None => Raise ValueError
  | Some b =>
      match find (fun m => bytes_eqb (value m) b) members with
      | Some m => Ok m
      | None => Raise ValueError
      end
  end.

(** [cls(m)] for a member [m]: [m] itself when it is of class [cls]. *)
Definition enum_call_member (type : string) (m : Enum) : result Enum :=
  if String.eqb (cls m) type then Ok m else Raise ValueError.

(** [cls[k]]: subscripting an [Enum] class looks the key up among the
    member names, so a key that is an integer is never found. *)
Inductive key : Type :=
| KInt (z : Z)
| KStr (s : string).

Definition class_getitem (members : list Enum) (k : key) : result Enum :=
  match k with
  | KStr s =>
      match find (fun m => String.eqb (name m) s) members with
      | Some m => Ok m
      | None => Raise KeyError
      end
  | KInt _ => Raise KeyError
  end.

(** [l.index(x)] *)
Fixpoint index (l : list Enum) (x : Enum) : result Z :=
  match l with
  | [] => Raise ValueError
  | y :: l' => if Enum_eqb y x then Ok 0 else i <- index l' x ;; Ok (i + 1)
  end.

(** [try: body / except E: handler] on a computation without effects. *)
Definition rtry {A} (body : result A) (catch : exn -> bool) (handler : result A) : result A :=
  match body with
  | Ok a => Ok a
  | Raise e => if catch e then handler else Raise e
  end.

Definition is_ValueError (e : exn) : bool :=
  match e with ValueError => true | _ => false end.

Definition is_IndexError (e : exn) : bool :=
  match e with IndexError => true | _ => false end.

(** ** The serial port

    The monitor is any function from the frames written to it so far to the
    bytes it then has on the line; the port records the frames written. *)
Record Serial : Type := mkSerial { device : list bytes -> bytes; written : list bytes }.

Definition M (A : Type) : Type := Serial -> result A * Serial.

Definition ret {A} (a : A) : M A := fun s => (Ok a, s).

Definition throw {A} (e : exn) : M A := fun s => (Raise e, s).

Definition lift {A} (r : result A) : M A := fun s => (r, s).

Definition bind {A B} (m : M A) (k : A -> M B) : M B :=
  fun s =>
    match m s with
    | (Ok a, s') => k a s'
    | (Raise e, s') => (Raise e, s')
    end.

Notation "x <~ m ;; k" := (bind m (fun x => k))
  (at level 61, m at next level, right associativity) : py_scope.

(** [try: body / except E: handler]: what [body] wrote stays written. *)
Definition try_except {A} (body : M A) (catch : exn -> bool) (handler : M A) : M A :=
  fun s =>
    match body s with
    | (Ok a, s') => (Ok a, s')
    | (Raise e, s') => if catch e then handler s' else (Raise e, s')
    end.

(** [s.write(c)] *)
Definition write (c : bytes) : M unit :=
  fun s => (Ok tt, mkSerial (device s) (written s ++ [c])).

(** [s.read(n)]: at most [n] of the bytes on the line. *)
Definition read (n : nat) : M bytes :=
  fun s => (Ok (firstn n (device s (written s))), s).

(** [query] *)
Definition query (rw cmd : Enum) (data : bytes) : M (option bytes) :=
  c <~ lift (build_cmd rw cmd data) ;;
  _ <~ write c ;;
  reply <~ read 64 ;;
  lift (parse_reply cmd reply).

(** ** Properties of the monitor

    The values the modelled properties take: Python [int]s and members of
    the enumerations. *)
Inductive pyval : Type :=
| VInt (z : Z)
| VEnum (m : Enum).

(** [int.from_bytes(x, endian)] for the result [x] of [query]; [None] is
    not bytes-like. *)
Definition int_from_query (x : option bytes) : result pyval :=
  match x with
  | Some b => Ok (VInt (int_from_bytes b))
  | None => Raise TypeError
  end.

(** [v in range(lo, hi)] *)
Definition in_range (v : pyval) (lo hi : Z) : bool :=
  match v with
  | VInt z => (lo <=? z) && (z <? hi)
  | VEnum _ => false
  end.

(** [v.value] *)
Definition value_of (v : pyval) : result bytes :=
  match v with
  | VEnum m => Ok (value m)
  | VInt _ => Raise AttributeError
  end.

(** [v.to_bytes(n, endian)] *)
Definition to_bytes_of (v : pyval) (n : nat) : result bytes :=
  match v with
  | VInt z => to_bytes z n
  | VEnum _ => Raise AttributeError
  end.

(** [bytearray().join(it)] and [sep.join(it)] for a bytes object [it]: its
    items are integers, and [join] accepts bytes-like items only. *)
Definition join (sep it : bytes) : result bytes :=
  match it with
  | [] => Ok []
  | _ :: _ => Raise TypeError
  end.

(** The names of the properties of class [P4317Q] with an [int] or an
    enumeration as value.  The identity and capability properties (strings
    and raw bytes) and [custom_color] (an [RGB] object) are left out. *)
Inductive attr : Type :=
| backlight_hours
| power_state | power_led | power_usb
| brightness | contrast | aspect_ratio | sharpness
| input_color_format | color_preset
| auto_select | video_input
| pxp_mode
| pxp_sub_input_win1 | pxp_sub_input_win2 | pxp_sub_input_win3 | pxp_sub_input_win4
| pxp_location
| osd_transparency | osd_language | osd_timer | osd_button_lock
| ddcci | lcd_conditioning.

(** The getter of an [int] property. *)
Definition get_int (cmd : Enum) : M pyval :=
  x <~ query ReadWrite.Read cmd [] ;;
  lift (int_from_query x).

(** The getter of an enumeration property: [cls(self.query(Read, cmd))]. *)
Definition get_enum (members : list Enum) (cmd : Enum) : M pyval :=
  x <~ query ReadWrite.Read cmd [] ;;
  m <~ lift (enum_call members x) ;;
  ret (VEnum m).

(** The setter of an enumeration property: [self.query(Write, cmd, v.value)]. *)
Definition set_enum (cmd : Enum) (v : pyval) : M unit :=
  d <~ lift (value_of v) ;;
  _ <~ query ReadWrite.Write cmd d ;;
  ret tt.

(** The setter of a checked [int] property:
    [if v not in range(lo, hi): raise ValueError], then the write. *)
Definition set_int_checked (lo hi : Z) (cmd : Enum) (n : nat) (v : pyval) : M unit :=
  if negb (in_range v lo hi) then throw ValueError
  else
    d <~ lift (to_bytes_of v n) ;;
    _ <~ query ReadWrite.Write cmd d ;;
    ret tt.

(** The setter of [sharpness], which has no check. *)
Definition set_int_unchecked (cmd : Enum) (n : nat) (v : pyval) : M unit :=
  d <~ lift (to_bytes_of v n) ;;
  _ <~ query ReadWrite.Write cmd d ;;
  ret tt.

(** [get_pxp_sub_input] *)
Definition get_pxp_sub_input (win : Enum) : M pyval :=
  x <~ query ReadWrite.Read Command.PxPSubInput (value win) ;;
  m <~ lift (enum_call VideoInput.members x) ;;
  ret (VEnum m).

(** [set_pxp_sub_input]: the data is
    [bytearray().join(win.value).join(v.value)]. *)
Definition set_pxp_sub_input (win : Enum) (v : pyval) : M unit :=
  a <~ lift (join [] (value win)) ;;
  b <~ lift (value_of v) ;;
  d <~ lift (join a b) ;;
  _ <~ query ReadWrite.Write Command.PxPSubInput d ;;
  ret tt.

(** [eval('self.{}'.format(n))]: the getter of property [n]. *)
Definition getattr (n : attr) : M pyval :=
  match n with
  | backlight_hours => get_int Command.BacklightHours
  | power_state => get_enum State.members Command.PowerState
  | power_led => get_enum State.members Command.PowerLED
  | power_usb => get_enum State.members Command.PowerUSB
  | brightness => get_int Command.Brightness
  | contrast => get_int Command.Contrast
  | aspect_ratio => get_enum AspectRatio.members Command.AspectRatio
  | sharpness => get_int Command.Sharpness
  | input_color_format => get_enum ColorFormat.members Command.InputColorFormat
  | color_preset => get_enum ColorPreset.members Command.ColorPreset
  | auto_select => get_enum State.members Command.AutoSelect
  | video_input => get_enum VideoInput.members Command.VideoInput
  | pxp_mode => get_enum State.members Command.PxPMode
  | pxp_sub_input_win1 => get_pxp_sub_input Window.Window1
  | pxp_sub_input_win2 => get_pxp_sub_input Window.Window2
  | pxp_sub_input_win3 => get_pxp_sub_input Window.Window3
  | pxp_sub_input_win4 => get_pxp_sub_input Window.Window4
  | pxp_location => get_enum PxPLocation.members Command.PxPLocation
  | osd_transparency => get_int Command.OSDTransparency
  | osd_language => get_enum Language.members Command.OSDLanguage
  | osd_timer => get_int Command.OSDTimer
  | osd_button_lock => get_enum State.members Command.OSDButtonLock
  | ddcci => get_enum State.members Command.DDCCI
  | lcd_conditioning => get_enum State.members Command.LCDConditioning
  end.

(** [exec('self.{}={}'.format(n, v))]: the setter of property [n], for a
    value [v] that its text denotes again (an [int] or a member of one of the
    module's enumerations).  [backlight_hours] has no setter. *)
Definition setattr (n : attr) (v : pyval) : M unit :=
  match n with
  | backlight_hours => throw AttributeError
  | power_state => set_enum Command.PowerState v
  | power_led => set_enum Command.PowerLED v
  | power_usb => set_enum Command.PowerUSB v
  | brightness => set_int_checked 0 100 Command.Brightness DataLength.Brightness v
  | contrast => set_int_checked 0 100 Command.Contrast DataLength.Contrast v
  | aspect_ratio => set_enum Command.AspectRatio v
  | sharpness => set_int_unchecked Command.Sharpness DataLength.Sharpness v
  | input_color_format => set_enum Command.InputColorFormat v
  | color_preset => set_enum Command.ColorPreset v
  | auto_select => set_enum Command.AutoSelect v
  | video_input => set_enum Command.VideoInput v
  | pxp_mode => set_enum Command.PxPMode v
  | pxp_sub_input_win1 => set_pxp_sub_input Window.Window1 v
  | pxp_sub_input_win2 => set_pxp_sub_input Window.Window2 v
  | pxp_sub_input_win3 => set_pxp_sub_input Window.Window3 v
  | pxp_sub_input_win4 => set_pxp_sub_input Window.Window4 v
  | pxp_location => set_enum Command.PxPLocation v
  | osd_transparency =>
      set_int_checked 0 100 Command.OSDTransparency DataLength.OSDTransparency v
  | osd_language => set_enum Command.OSDLanguage v
  | osd_timer => set_int_checked 5 60 Command.OSDTimer DataLength.OSDTimer v
  | osd_button_lock => set_enum Command.OSDButtonLock v
  | ddcci => set_enum Command.DDCCI v
  | lcd_conditioning => set_enum Command.LCDConditioning v
  end.

(** ** Generic access: [set_value] and [get_value] *)

(** [eval('{}(list({})[list({}).index(old)+ud.value])'.format(type, type, type))] *)
Definition eval_neighbour (type : string) (old : Enum) (ud : UpDown.t) : result Enum :=
  T <- lookup_class type ;;
  i <- index T old ;;
  m <- getitem T (i + UpDown.value ud) ;;
  enum_call_member type m.

(** [eval('{}[0] if 0 <= ud.value else {}[-1]'.format(type, type))] *)
Definition eval_wrap (type : string) (ud : UpDown.t) : result Enum :=
  T <- lookup_class type ;;
  if 0 <=? UpDown.value ud then class_getitem T (KInt 0) else class_getitem T (KInt (-1)).

(** [set_value] *)
Definition set_value (n : attr) (v : option pyval) (ud : option UpDown.t) : M pyval :=
  match v, ud with
  | Some v, _ =>
      _ <~ setattr n v ;;
      ret v
  | None, Some ud =>
      old <~ getattr n ;;
      match old with
      | VInt i =>
          let new := i + UpDown.value ud in
          try_except (_ <~ setattr n (VInt new) ;; ret (VInt new))
                     is_ValueError
                     (ret (VInt i))
      | VEnum m =>
          let type := cls m in
          new <~ lift (rtry (eval_neighbour type m ud) is_IndexError (eval_wrap type ud)) ;;
          _ <~ setattr n (VEnum new) ;;
          ret (VEnum new)
      end
  | None, None => throw ValueError
  end.

(** [get_value] *)
Definition get_value (n : attr) : M pyval := getattr n.

(** ** Vocabulary of the specification *)

(** The XOR of all the bytes of [v]. *)
Definition xor_all (v : bytes) : Z := fold_left Z.lxor v 0.

(** A reply frame without its checksum: reply header, length byte, reply
    marker [0x02], result code Success, echoed opcode [o] and payload [p]. *)
Definition reply_body (o : Z) (p : bytes) : bytes :=
  value Header.Reply ++ [3 + len p] ++ [0x02; 0x00; o] ++ p.

(** The well-formed reply frame for opcode [o] and payload [p]. *)
Definition reply_frame (o : Z) (p : bytes) : bytes :=
  reply_body o p ++ [xor_all (reply_body o p)].

(** A command frame without its checksum. *)
Definition cmd_body (rw cmd : Enum) (data : bytes) : bytes :=
  value Header.Command ++ [len (value rw) + len (value cmd) + len data]
  ++ value rw ++ value cmd ++ data.

(** [v] with bit [k] of its byte at index [i] flipped. *)
Fixpoint flip_bit (v : bytes) (i : nat) (k : Z) : bytes :=
  match v, i with
  | [], _ => []
  | b :: r, O => Z.lxor b (2 ^ k) :: r
  | b :: r, S j => b :: flip_bit r j k
  end.

(** The six errors of reply validation. *)
Definition protocol_error (e : exn) : bool :=
  match e with
  | HeaderError | LengthError | FormatError | ResultCodeError _
  | CommandError | ChecksumError => true
  | _ => false
  end.

(** The error a bit flip at byte [i] of a valid reply is caught with: the
    check that reads byte [i] first. *)
Definition flip_error (i : nat) (k : Z) : exn :=
  match i with
  | 0%nat | 1%nat => HeaderError
  | 2%nat => LengthError
  | 3%nat => FormatError
  | 4%nat => ResultCodeError (2 ^ k)
  | 5%nat => CommandError
  | _ => ChecksumError
  end.

(** The [int] properties whose setter checks its argument, with the least
    and the greatest value the check lets through. *)
Definition declared_range (n : attr) : option (Z * Z) :=
  match n with
  | brightness | contrast | osd_transparency => Some (0, 99)
  | osd_timer => Some (5, 59)
  | _ => None
  end.

(** [m] is the last member of its class, in definition order. *)
Definition is_last (m : Enum) : Prop :=
  exists T, lookup_class (cls m) = Ok T /\ index T m = Ok (len T - 1).

(** [m] is the first member of its class. *)
Definition is_first (m : Enum) : Prop :=
  exists T, lookup_class (cls m) = Ok T /\ index T m = Ok 0.

(** A port on which nothing was written yet and whose monitor answers every
    frame with [reply]: a transport test double. *)
Definition answering (reply : bytes) : Serial := mkSerial (fun _ => reply) [].

(** [v] followed by the XOR of its bytes. *)
Definition with_checksum (v : bytes) : bytes := v ++ [xor_all v].

(** ** The [RGB] class

    An [RGB] object has three channels, each [None] until it is set. *)
Record RGB : Type := mkRGB { Red : option Z; Green : option Z; Blue : option Z }.

(** [v in range(0, 100)] for an [int]. *)
Definition percent (v : Z) : bool := (0 <=? v) && (v <? 100).

(** The setters of [red], [green] and [blue]. *)
Definition set_red (self : RGB) (v : Z) : result RGB :=
  if percent v then Ok (mkRGB (Some v) (Green self) (Blue self)) else Raise ValueError.

Definition set_green (self : RGB) (v : Z) : result RGB :=
  if percent v then Ok (mkRGB (Red self) (Some v) (Blue self)) else Raise ValueError.

Definition set_blue (self : RGB) (v : Z) : result RGB :=
  if percent v then Ok (mkRGB (Red self) (Green self) (Some v)) else Raise ValueError.

(** [RGB.__init__]: the keyword channels first, then the channels read
    from the bytes [rgb], one byte each. *)
Definition RGB_init (red green blue : option Z) (rgb : option bytes) : result RGB :=
  let self := mkRGB None None None in
  self <- match red with
          | Some r => set_red self r
          | None => Ok self
          end ;;
  self <- match green with
          | Some g => set_green self g
          | None => Ok self
          end ;;
  self <- match blue with
          | Some b => set_blue self b
          | None => Ok self
          end ;;
  match rgb with
  | Some rgb =>
      self <- set_red self (int_from_bytes (slice rgb 0 1)) ;;
      self <- set_green self (int_from_bytes (slice rgb 1 2)) ;;
      set_blue self (int_from_bytes (slice rgb 2 3))
  | None => Ok self
  end.

(** [bytes(l)] for a list of items that are an [int] or [None]: the items
    are taken in order, [None] is a [TypeError] and an [int] outside
    [range(256)] a [ValueError]. *)
Fixpoint bytes_of_list (l : list (option Z)) : result bytes :=
  match l with
  | [] => Ok []
  | None :: _ => Raise TypeError
  | Some z :: l' =>
      when negb (byteb z) raise ValueError ;;
      t <- bytes_of_list l' ;;
      Ok (z :: t)
  end.

(** [RGB.to_bytes] *)
Definition RGB_to_bytes (self : RGB) : result bytes :=
  bytes_of_list [Red self; Green self; Blue self].

(** The getter of [custom_color]. *)
Definition get_custom_color : M RGB :=
  x <~ query ReadWrite.Read Command.CustomColor [] ;;
  lift (RGB_init None None None x).

(** The setter of [custom_color]. *)
Definition set_custom_color (v : RGB) : M unit :=
  d <~ lift (RGB_to_bytes v) ;;
  _ <~ query ReadWrite.Write Command.CustomColor d ;;
  ret tt.

(** ** Actions without a value *)

(** [reset_power] *)
Definition reset_power : M unit :=
  _ <~ query ReadWrite.Write Command.ResetPower [] ;; ret tt.

(** [reset_color] *)
Definition reset_color : M unit :=
  _ <~ query ReadWrite.Write Command.ResetColor [] ;; ret tt.

(** [reset_osd] *)
Definition reset_osd : M unit :=
  _ <~ query ReadWrite.Write Command.ResetOSD [] ;; ret tt.

(** [factory_reset] *)
Definition factory_reset : M unit :=
  _ <~ query ReadWrite.Write Command.FactoryReset [] ;; ret tt.

(** ** The opcode search *)

(** [except P4317qError]: the nine exception classes of the module. *)
Definition is_P4317qError (e : exn) : bool :=
  match e with
  | HeaderError | ChecksumError | UnsupportedCommand | ParameterOverRange
  | ExtraParameter | FormatError | LengthError | ResultCodeError _
  | CommandError => true
  | _ => false
  end.

(** The loop of [search_func] over the opcodes [cs]; [out] is what was
    printed so far, a line [hex(c) : data] being the pair [(c, data)]. *)
Fixpoint search_loop (cs : list Z) (out : list (Z * option bytes))
  : M (list (Z * option bytes)) :=
  match cs with
  | [] => ret out
  | c :: cs' =>
      out' <~ try_except
                (x <~ query ReadWrite.Read (FakeCommand [c]) [] ;;
                 ret (out ++ [(c, x)]))
                is_P4317qError
                (ret out) ;;
      search_loop cs' out'
  end.

(** [range(0, 0xff)] *)
Definition search_range : list Z := map Z.of_nat (seq 0 255).

(** [search_func] *)
Definition search_func : M (list (Z * option bytes)) :=
  search_loop search_range [].

(** ** More vocabulary *)

(** The command a property reads and writes. *)
Definition command_of (n : attr) : Enum :=
  match n with
  | backlight_hours => Command.BacklightHours
  | power_state => Command.PowerState
  | power_led => Command.PowerLED
  | power_usb => Command.PowerUSB
  | brightness => Command.Brightness
  | contrast => Command.Contrast
  | aspect_ratio => Command.AspectRatio
  | sharpness => Command.Sharpness
  | input_color_format => Command.InputColorFormat
  | color_preset => Command.ColorPreset
  | auto_select => Command.AutoSelect
  | video_input => Command.VideoInput
  | pxp_mode => Command.PxPMode
  | pxp_sub_input_win1 | pxp_sub_input_win2
  | pxp_sub_input_win3 | pxp_sub_input_win4 => Command.PxPSubInput
  | pxp_location => Command.PxPLocation
  | osd_transparency => Command.OSDTransparency
  | osd_language => Command.OSDLanguage
  | osd_timer => Command.OSDTimer
  | osd_button_lock => Command.OSDButtonLock
  | ddcci => Command.DDCCI
  | lcd_conditioning => Command.LCDConditioning
  end.

(** The data a property's getter sends with its read: the window for the
    PxP sub inputs, nothing for the others. *)
Definition read_data (n : attr) : bytes :=
  match n with
  | pxp_sub_input_win1 => value Window.Window1
  | pxp_sub_input_win2 => value Window.Window2
  | pxp_sub_input_win3 => value Window.Window3
  | pxp_sub_input_win4 => value Window.Window4
  | _ => []
  end.

(** The frame [__build_cmd] returns when the length fits its byte. *)
Definition cmd_frame (rw cmd : Enum) (data : bytes) : bytes :=
  with_checksum (cmd_body rw cmd data).

(** The exchange of a setter: the reply is validated and its payload
    dropped. *)
Definition write_result (cmd : Enum) (d : bytes) (s : Serial) : result unit * Serial :=
  (match parse_reply cmd (firstn 64 (device s (written s ++ [cmd_frame ReadWrite.Write cmd d]))) with
   | Ok _ => Ok tt
   | Raise e => Raise e
   end,
   mkSerial (device s) (written s ++ [cmd_frame ReadWrite.Write cmd d])).

(** The frame [search_func] writes for opcode [c]. *)
Definition probe_frame (c : Z) : bytes :=
  cmd_frame ReadWrite.Read (FakeCommand [c]) [].

(** Every channel that is set is in [0, 100). *)
Definition RGB_ok (c : RGB) : Prop :=
  (forall v, Red c = Some v -> 0 <= v < 100)
  /\ (forall v, Green c = Some v -> 0 <= v < 100)
  /\ (forall v, Blue c = Some v -> 0 <= v < 100).

(** ** Bytes and slices *)

Lemma bytes_eqb_eq (a b : bytes) : bytes_eqb a b = true <-> a = b.
Proof.
  revert b; induction a as [|x a IH]; intros [|y b]; simpl; split; intro H;
    try reflexivity; try discriminate.
  - apply andb_true_iff in H as [Hx Hab].
    apply Z.eqb_eq in Hx. apply IH in Hab. congruence.
  - injection H as -> ->. rewrite Z.eqb_refl. simpl. now apply IH.
Qed.

Lemma bytes_eqb_neq (a b : bytes) : bytes_eqb a b = false <-> a <> b.
Proof.
  split.
  - intros H E. apply bytes_eqb_eq in E. congruence.
  - intros H. destruct (bytes_eqb a b) eqn:E; [|reflexivity].
    apply bytes_eqb_eq in E. contradiction.
Qed.

Lemma len_nonneg {A} (l : list A) : 0 <= len l.
Proof. unfold len. lia. Qed.

Lemma len_app {A} (l l' : list A) : len (l ++ l') = len l + len l'.
Proof. unfold len. rewrite length_app. lia. Qed.

Lemma len_nil {A} : len (@nil A) = 0.
Proof. reflexivity. Qed.

Lemma len_cons {A} (x : A) (l : list A) : len (x :: l) = 1 + len l.
Proof. unfold len. cbn [List.length]. lia. Qed.

Ltac len_lia := rewrite ?len_app, ?len_cons; change (@len Z nil) with 0 in *; lia.

Lemma firstn_beyond {A} (l : list A) (n m : nat) :
  (List.length l <= n)%nat -> (List.length l <= m)%nat -> firstn n l = firstn m l.
Proof. intros Hn Hm. rewrite !firstn_all2 by assumption. reflexivity. Qed.

(** For bounds that are not negative a slice is a [firstn] of a [skipn]. *)
Lemma slice_eq {A} (l : list A) (i j : Z) :
  0 <= i -> 0 <= j ->
  slice l i j = firstn (Z.to_nat j - Z.to_nat i) (skipn (Z.to_nat i) l).
Proof.
  intros Hi Hj. unfold slice, clamp.
  destruct (i <? 0) eqn:Ei; [apply Z.ltb_lt in Ei; lia|].
  destruct (j <? 0) eqn:Ej; [apply Z.ltb_lt in Ej; lia|].
  pose proof (len_nonneg l) as Hl. unfold len in *.
  destruct (Z.le_gt_cases i (Z.of_nat (List.length l))) as [Hil|Hil].
  - rewrite (Z.min_l i) by assumption.
    destruct (Z.le_gt_cases j (Z.of_nat (List.length l))) as [Hjl|Hjl].
    + rewrite (Z.min_l j) by assumption. f_equal. lia.
    + rewrite (Z.min_r j) by lia.
      apply firstn_beyond; rewrite length_skipn; lia.
  - rewrite (Z.min_r i) by lia.
    rewrite Nat2Z.id.
    rewrite (skipn_all2 l (n := Z.to_nat i)) by lia.
    rewrite skipn_all. now rewrite !firstn_nil.
Qed.

Lemma length_slice {A} (l : list A) (i j : Z) :
  0 <= i -> 0 <= j ->
  List.length (slice l i j)
  = Nat.min (Z.to_nat j - Z.to_nat i) (List.length l - Z.to_nat i).
Proof.
  intros Hi Hj. rewrite slice_eq by assumption.
  now rewrite length_firstn, length_skipn.
Qed.

Lemma is_bytes_app (a b : bytes) : is_bytes (a ++ b) <-> is_bytes a /\ is_bytes b.
Proof. unfold is_bytes. rewrite forallb_app. apply andb_true_iff. Qed.

Lemma is_bytes_cons (x : Z) (a : bytes) :
  is_bytes (x :: a) <-> (0 <= x < 256) /\ is_bytes a.
Proof.
  unfold is_bytes, byteb. simpl. rewrite !andb_true_iff, Z.leb_le, Z.ltb_lt.
  tauto.
Qed.

Lemma is_bytes_firstn (n : nat) (v : bytes) : is_bytes v -> is_bytes (firstn n v).
Proof.
  revert n; induction v as [|x v IH]; intros [|n] H; try reflexivity.
  simpl. apply is_bytes_cons in H as [Hx Hv]. apply is_bytes_cons. auto.
Qed.

Lemma is_bytes_skipn (n : nat) (v : bytes) : is_bytes v -> is_bytes (skipn n v).
Proof.
  revert n; induction v as [|x v IH]; intros [|n] H; try assumption; try reflexivity.
  simpl. apply is_bytes_cons in H as [_ Hv]. auto.
Qed.

Lemma is_bytes_slice (v : bytes) (i j : Z) : is_bytes v -> is_bytes (slice v i j).
Proof. intros H. unfold slice. now apply is_bytes_firstn, is_bytes_skipn. Qed.

Lemma slice_prefix {A} (a b : list A) (i j : Z) :
  0 <= i -> 0 <= j <= len a -> slice (a ++ b) i j = slice a i j.
Proof.
  intros Hi Hj. rewrite !slice_eq by lia. unfold len in Hj.
  destruct (Z.le_gt_cases i j) as [Hij|Hij].
  - rewrite skipn_app, firstn_app, length_skipn.
    replace (Z.to_nat j - Z.to_nat i - (List.length a - Z.to_nat i))%nat with 0%nat by lia.
    rewrite firstn_O. apply app_nil_r.
  - replace (Z.to_nat j - Z.to_nat i)%nat with 0%nat by lia. reflexivity.
Qed.

Lemma slice_suffix {A} (a b : list A) (i j : Z) :
  len a <= i <= j -> slice (a ++ b) i j = slice b (i - len a) (j - len a).
Proof.
  intros Hi. pose proof (len_nonneg a) as Ha. unfold len in *.
  rewrite !slice_eq by lia.
  rewrite skipn_app, (skipn_all2 a (n := Z.to_nat i)) by lia. cbn [app].
  f_equal; [lia | f_equal; lia].
Qed.

Lemma slice_all {A} (a : list A) : slice a 0 (len a) = a.
Proof.
  pose proof (len_nonneg a). rewrite slice_eq by lia. unfold len.
  rewrite Nat2Z.id. simpl. rewrite Nat.sub_0_r. apply firstn_all.
Qed.

Lemma int_from_bytes_acc (v : bytes) (a : Z) :
  is_bytes v -> 0 <= a -> 0 <= fold_left (fun acc b => acc * 256 + b) v a.
Proof.
  revert a; induction v as [|x v IH]; intros a H Ha; simpl; [assumption|].
  apply is_bytes_cons in H as [Hx Hv]. apply IH; [assumption | lia].
Qed.

Lemma int_from_bytes_nonneg (v : bytes) : is_bytes v -> 0 <= int_from_bytes v.
Proof. intros H. apply int_from_bytes_acc; [assumption | lia]. Qed.

(** ** The checksum *)

Lemma lxor_byte (a b : Z) : 0 <= a < 256 -> 0 <= b < 256 -> 0 <= Z.lxor a b < 256.
Proof.
  intros Ha Hb.
  assert (H0 : 0 <= Z.lxor a b) by (apply Z.lxor_nonneg; lia).
  split; [assumption|].
  destruct (Z.eq_dec (Z.lxor a b) 0) as [E|E]; [lia|].
  change 256 with (2 ^ 8). apply Z.log2_lt_pow2; [lia|].
  pose proof (Z.log2_lxor a b ltac:(lia) ltac:(lia)) as Hl.
  assert (Ha' : Z.log2 a < 8).
  { destruct (Z.eq_dec a 0) as [->|]; [simpl; lia|].
    apply Z.log2_lt_pow2; [lia|]. change (2 ^ 8) with 256. lia. }
  assert (Hb' : Z.log2 b < 8).
  { destruct (Z.eq_dec b 0) as [->|]; [simpl; lia|].
    apply Z.log2_lt_pow2; [lia|]. change (2 ^ 8) with 256. lia. }
  lia.
Qed.

Lemma fold_lxor_acc (v : bytes) (a : Z) :
  fold_left Z.lxor v a = Z.lxor a (xor_all v).
Proof.
  unfold xor_all. revert a; induction v as [|x v IH]; intro a; simpl.
  - now rewrite Z.lxor_0_r.
  - rewrite (IH (Z.lxor a x)), (IH x). now rewrite Z.lxor_assoc.
Qed.

Lemma xor_all_app (a b : bytes) : xor_all (a ++ b) = Z.lxor (xor_all a) (xor_all b).
Proof. unfold xor_all at 1. rewrite fold_left_app. apply fold_lxor_acc. Qed.

Lemma xor_all_cons (x : Z) (a : bytes) : xor_all (x :: a) = Z.lxor x (xor_all a).
Proof. unfold xor_all at 1. simpl. apply fold_lxor_acc. Qed.

Lemma xor_all_byte (v : bytes) : is_bytes v -> 0 <= xor_all v < 256.
Proof.
  induction v as [|x v IH]; intro H.
  - unfold xor_all; simpl; lia.
  - apply is_bytes_cons in H as [Hx Hv]. rewrite xor_all_cons.
    apply lxor_byte; auto.
Qed.

Lemma to_bytes_1 (z : Z) : 0 <= z < 256 -> to_bytes z 1 = Ok [z].
Proof.
  intros Hz. unfold to_bytes.
  destruct (z <? 0) eqn:E; [apply Z.ltb_lt in E; lia|].
  change (256 ^ Z.of_nat 1) with 256.
  destruct (256 <=? z) eqn:E'; [apply Z.leb_le in E'; lia|].
  simpl. now rewrite Z.mod_small.
Qed.

(** On bytes [__calc_check_sum] does not fail and yields the XOR as one byte. *)
Lemma calc_check_sum_bytes (v : bytes) : is_bytes v -> calc_check_sum v = Ok [xor_all v].
Proof.
  intros H. unfold calc_check_sum.
  change (fold_left (fun s i => Z.lxor s i) v 0) with (xor_all v).
  apply to_bytes_1, xor_all_byte, H.
Qed.

(** ** The command encoder *)

(** The length byte needs the three byte counts to add up to at most 255:
    beyond that [to_bytes(1, endian)] raises. *)
Lemma build_cmd_overflow (rw cmd : Enum) (data : bytes) :
  255 < len (value rw) + len (value cmd) + len data ->
  build_cmd rw cmd data = Raise OverflowError.
Proof.
  intros H. unfold build_cmd, to_bytes.
  destruct (_ <? 0) eqn:E; [reflexivity|].
  change (256 ^ Z.of_nat 1) with 256.
  destruct (256 <=? _) eqn:E'; [reflexivity|].
  apply Z.leb_gt in E'. lia.
Qed.

(** C7, as the code has it: for every direction, opcode and payload whose
    byte counts add up to at most 255, [__build_cmd] succeeds and returns
    the command header, the length byte [len(rw)+len(opcode)+len(data)],
    the direction byte, the opcode bytes, the data bytes and a last byte
    that is the XOR of every byte before it. *)
Theorem build_cmd_frame (rw cmd : Enum) (data : bytes) :
  is_bytes (value rw) -> is_bytes (value cmd) -> is_bytes data ->
  len (value rw) + len (value cmd) + len data <= 255 ->
  build_cmd rw cmd data
  = Ok (value Header.Command
        ++ [len (value rw) + len (value cmd) + len data]
        ++ value rw ++ value cmd ++ data
        ++ [xor_all (cmd_body rw cmd data)]).
Proof.
  intros Hrw Hcmd Hdata Hlen. unfold build_cmd.
  pose proof (len_nonneg (value rw)). pose proof (len_nonneg (value cmd)).
  pose proof (len_nonneg data).
  rewrite to_bytes_1 by lia. cbn [rbind].
  rewrite calc_check_sum_bytes.
  - cbn [rbind]. unfold cmd_body. f_equal.
    rewrite <- !app_assoc. reflexivity.
  - rewrite !is_bytes_app. repeat split; try assumption; try reflexivity.
    apply is_bytes_cons. split; [lia|reflexivity].
Qed.

(** A read of the brightness and a write of one data byte. *)
Lemma build_cmd_frame_witness :
  build_cmd ReadWrite.Read Command.Brightness [] = Ok [0x37; 0x51; 0x02; 0xeb; 0x30; 0xbf]
  /\ build_cmd ReadWrite.Write Command.Brightness [0x32]
     = Ok [0x37; 0x51; 0x03; 0xea; 0x30; 0x32; 0x8d].
Proof.
  split.
  - apply (build_cmd_frame ReadWrite.Read Command.Brightness []);
      [reflexivity | reflexivity | reflexivity | vm_compute; discriminate].
  - apply (build_cmd_frame ReadWrite.Write Command.Brightness [0x32]);
      [reflexivity | reflexivity | reflexivity | vm_compute; discriminate].
Defined.

(** C7 as stated fails: a payload of 254 bytes makes the length 256, which
    one byte cannot hold, and the encoder raises instead of returning a
    frame. *)
Lemma build_cmd_fails_on_long_payload :
  is_bytes (repeat 0 254)
  /\ build_cmd ReadWrite.Read Command.Brightness (repeat 0 254) = Raise OverflowError.
Proof. split; vm_compute; reflexivity. Qed.

(** ** The reply decoder, check by check *)

Ltac passes H := rewrite (proj2 (bytes_eqb_eq _ _) H); cbn [negb].
Ltac fails H := rewrite (proj2 (bytes_eqb_neq _ _) H); cbn [negb].

Section Checks.
Variables (cmd : Enum) (reply : bytes).

Let ln := int_from_bytes (slice reply 2 3).

Lemma check_header :
  slice reply 0 2 <> value Header.Reply ->
  parse_reply cmd reply = Raise HeaderError.
Proof. intros H. unfold parse_reply. now fails H. Qed.

Lemma check_length :
  slice reply 0 2 = value Header.Reply ->
  ln <> len reply - 4 ->
  parse_reply cmd reply = Raise LengthError.
Proof.
  intros H1 H2. unfold parse_reply. passes H1.
  apply Z.eqb_neq in H2. fold ln. now rewrite H2.
Qed.

Lemma check_format :
  slice reply 0 2 = value Header.Reply ->
  ln = len reply - 4 ->
  slice reply 3 4 <> [0x02] ->
  parse_reply cmd reply = Raise FormatError.
Proof.
  intros H1 H2 H3. unfold parse_reply. passes H1.
  apply Z.eqb_eq in H2. fold ln. rewrite H2. cbn [negb]. now fails H3.
Qed.

Lemma check_result_code :
  slice reply 0 2 = value Header.Reply ->
  ln = len reply - 4 ->
  slice reply 3 4 = [0x02] ->
  slice reply 4 5 <> value ResultCode.Success ->
  parse_reply cmd reply = Raise (ResultCodeError (int_from_bytes (slice reply 4 5))).
Proof.
  intros H1 H2 H3 H4. unfold parse_reply. passes H1.
  apply Z.eqb_eq in H2. fold ln. rewrite H2. cbn [negb]. passes H3. now fails H4.
Qed.

Lemma check_command :
  slice reply 0 2 = value Header.Reply ->
  ln = len reply - 4 ->
  slice reply 3 4 = [0x02] ->
  slice reply 4 5 = value ResultCode.Success ->
  slice reply 5 6 <> value cmd ->
  parse_reply cmd reply = Raise CommandError.
Proof.
  intros H1 H2 H3 H4 H5. unfold parse_reply. passes H1.
  apply Z.eqb_eq in H2. fold ln. rewrite H2. cbn [negb]. passes H3. passes H4.
  now fails H5.
Qed.

Lemma check_checksum :
  is_bytes reply ->
  slice reply 0 2 = value Header.Reply ->
  ln = len reply - 4 ->
  slice reply 3 4 = [0x02] ->
  slice reply 4 5 = value ResultCode.Success ->
  slice reply 5 6 = value cmd ->
  slice reply (ln + 3) (ln + 4) <> [xor_all (slice reply 0 (ln + 3))] ->
  parse_reply cmd reply = Raise ChecksumError.
Proof.
  intros Hb H1 H2 H3 H4 H5 H6. unfold parse_reply. passes H1.
  apply Z.eqb_eq in H2. fold ln. rewrite H2. cbn [negb]. passes H3. passes H4.
  passes H5. rewrite calc_check_sum_bytes by now apply is_bytes_slice.
  cbn [rbind]. now fails H6.
Qed.

Lemma checks_pass :
  is_bytes reply ->
  slice reply 0 2 = value Header.Reply ->
  ln = len reply - 4 ->
  slice reply 3 4 = [0x02] ->
  slice reply 4 5 = value ResultCode.Success ->
  slice reply 5 6 = value cmd ->
  slice reply (ln + 3) (ln + 4) = [xor_all (slice reply 0 (ln + 3))] ->
  parse_reply cmd reply
  = Ok (if ln <? 4 then None else Some (slice reply 6 (ln + 3))).
Proof.
  intros Hb H1 H2 H3 H4 H5 H6. unfold parse_reply. passes H1.
  apply Z.eqb_eq in H2. fold ln. rewrite H2. cbn [negb]. passes H3. passes H4.
  passes H5. rewrite calc_check_sum_bytes by now apply is_bytes_slice.
  cbn [rbind]. now passes H6.
Qed.

(** What a reply that decodes has passed. *)
Lemma parse_reply_ok_inv (p : option bytes) :
  is_bytes reply ->
  parse_reply cmd reply = Ok p ->
  slice reply 0 2 = value Header.Reply
  /\ ln = len reply - 4
  /\ slice reply 3 4 = [0x02]
  /\ slice reply 4 5 = value ResultCode.Success
  /\ slice reply 5 6 = value cmd
  /\ slice reply (ln + 3) (ln + 4) = [xor_all (slice reply 0 (ln + 3))]
  /\ p = (if ln <? 4 then None else Some (slice reply 6 (ln + 3))).
Proof.
  intros Hb. unfold parse_reply. fold ln.
  rewrite calc_check_sum_bytes by now apply is_bytes_slice. cbn [rbind].
  destruct (bytes_eqb (slice reply 0 2) _) eqn:E1; cbn [negb]; [|discriminate].
  destruct (ln =? len reply - 4) eqn:E2; cbn [negb]; [|discriminate].
  destruct (bytes_eqb (slice reply 3 4) _) eqn:E3; cbn [negb]; [|discriminate].
  destruct (bytes_eqb (slice reply 4 5) _) eqn:E4; cbn [negb]; [|discriminate].
  destruct (bytes_eqb (slice reply 5 6) _) eqn:E5; cbn [negb]; [|discriminate].
  destruct (bytes_eqb (slice reply (ln + 3) (ln + 4)) _) eqn:E6; cbn [negb];
    [|discriminate].
  intros [= <-].
  apply bytes_eqb_eq in E1, E3, E4, E5, E6. apply Z.eqb_eq in E2.
  repeat split; assumption.
Qed.

End Checks.

(** C2: the checks of [__parse_reply] come in a fixed order and the first one
    that fails decides the error.  A wrong header raises [HeaderError]; with
    the header right, a length byte other than the byte count minus 4 raises
    [LengthError]; then a marker other than [0x02] raises [FormatError]; then
    a result code other than Success raises [ResultCodeError] with the code
    as a number; then an opcode other than the expected one raises
    [CommandError]; then a last byte other than the XOR of the bytes
    [0, length+3) raises [ChecksumError]. *)
Theorem parse_reply_check_order (cmd : Enum) (reply : bytes) :
  is_bytes reply ->
  let ln := int_from_bytes (slice reply 2 3) in
  (slice reply 0 2 <> value Header.Reply ->
   parse_reply cmd reply = Raise HeaderError)
  /\ (slice reply 0 2 = value Header.Reply ->
      ln <> len reply - 4 ->
      parse_reply cmd reply = Raise LengthError)
  /\ (slice reply 0 2 = value Header.Reply ->
      ln = len reply - 4 ->
      slice reply 3 4 <> [0x02] ->
      parse_reply cmd reply = Raise FormatError)
  /\ (slice reply 0 2 = value Header.Reply ->
      ln = len reply - 4 ->
      slice reply 3 4 = [0x02] ->
      slice reply 4 5 <> value ResultCode.Success ->
      parse_reply cmd reply = Raise (ResultCodeError (int_from_bytes (slice reply 4 5))))
  /\ (slice reply 0 2 = value Header.Reply ->
      ln = len reply - 4 ->
      slice reply 3 4 = [0x02] ->
      slice reply 4 5 = value ResultCode.Success ->
      slice reply 5 6 <> value cmd ->
      parse_reply cmd reply = Raise CommandError)
  /\ (slice reply 0 2 = value Header.Reply ->
      ln = len reply - 4 ->
      slice reply 3 4 = [0x02] ->
      slice reply 4 5 = value ResultCode.Success ->
      slice reply 5 6 = value cmd ->
      slice reply (ln + 3) (ln + 4) <> [xor_all (slice reply 0 (ln + 3))] ->
      parse_reply cmd reply = Raise ChecksumError).
Proof.
  intros Hb ln. repeat split.
  - apply check_header.
  - apply check_length.
  - apply check_format.
  - apply check_result_code.
  - apply check_command.
  - now apply check_checksum.
Qed.

(** One reply per check, each wrong in that check only; the expected opcode
    is that of the brightness. *)
Lemma parse_reply_check_order_witness :
  parse_reply Command.Brightness [0x6e; 0x37; 0x04; 0x02; 0x00; 0x30; 0x32; 0x5c]
  = Raise HeaderError
  /\ parse_reply Command.Brightness [0x6f; 0x37; 0x05; 0x02; 0x00; 0x30; 0x32; 0x5c]
     = Raise LengthError
  /\ parse_reply Command.Brightness [0x6f; 0x37; 0x04; 0x03; 0x00; 0x30; 0x32; 0x5c]
     = Raise FormatError
  /\ parse_reply Command.Brightness [0x6f; 0x37; 0x04; 0x02; 0x03; 0x30; 0x32; 0x5c]
     = Raise (ResultCodeError 3)
  /\ parse_reply Command.Brightness [0x6f; 0x37; 0x04; 0x02; 0x00; 0x31; 0x32; 0x5c]
     = Raise CommandError
  /\ parse_reply Command.Brightness [0x6f; 0x37; 0x04; 0x02; 0x00; 0x30; 0x33; 0x5c]
     = Raise ChecksumError.
Proof.
  split.
  { apply (parse_reply_check_order Command.Brightness
             [0x6e; 0x37; 0x04; 0x02; 0x00; 0x30; 0x32; 0x5c] eq_refl);
      first [reflexivity | vm_compute; discriminate]. }
  split.
  { apply (parse_reply_check_order Command.Brightness
             [0x6f; 0x37; 0x05; 0x02; 0x00; 0x30; 0x32; 0x5c] eq_refl);
      first [reflexivity | vm_compute; discriminate]. }
  split.
  { apply (parse_reply_check_order Command.Brightness
             [0x6f; 0x37; 0x04; 0x03; 0x00; 0x30; 0x32; 0x5c] eq_refl);
      first [reflexivity | vm_compute; discriminate]. }
  split.
  { apply (parse_reply_check_order Command.Brightness
             [0x6f; 0x37; 0x04; 0x02; 0x03; 0x30; 0x32; 0x5c] eq_refl);
      first [reflexivity | vm_compute; discriminate]. }
  split.
  { apply (parse_reply_check_order Command.Brightness
             [0x6f; 0x37; 0x04; 0x02; 0x00; 0x31; 0x32; 0x5c] eq_refl);
      first [reflexivity | vm_compute; discriminate]. }
  { apply (parse_reply_check_order Command.Brightness
             [0x6f; 0x37; 0x04; 0x02; 0x00; 0x30; 0x33; 0x5c] eq_refl);
      first [reflexivity | vm_compute; discriminate]. }
Defined.

(** C10: [__parse_reply] is total on byte strings.  Whatever the bytes and
    however few, it returns a payload or [None], or raises one of the six
    errors of reply validation and nothing else (every access is a slice, so
    there is no [IndexError]); and a reply of fewer than 4 bytes is rejected
    by the header or the length check. *)
Theorem parse_reply_total (cmd : Enum) (reply : bytes) :
  is_bytes reply ->
  ((exists p, parse_reply cmd reply = Ok p)
   \/ (exists e, parse_reply cmd reply = Raise e /\ protocol_error e = true))
  /\ (len reply < 4 ->
      parse_reply cmd reply = Raise HeaderError
      \/ parse_reply cmd reply = Raise LengthError).
Proof.
  intros Hb. split.
  - unfold parse_reply.
    rewrite calc_check_sum_bytes by now apply is_bytes_slice. cbn [rbind].
    repeat match goal with
           | |- context [if negb ?c then _ else _] => destruct c; cbn [negb]
           end;
      solve [left; eexists; reflexivity | right; eexists; split; reflexivity].
  - intros Hshort.
    destruct (bytes_eqb (slice reply 0 2) (value Header.Reply)) eqn:E.
    + right. apply bytes_eqb_eq in E. apply check_length; [assumption|].
      pose proof (int_from_bytes_nonneg (slice reply 2 3)
                    (is_bytes_slice reply 2 3 Hb)). lia.
    + left. apply bytes_eqb_neq in E. now apply check_header.
Qed.

(** The empty reply of an absent monitor, and a reply cut after its header. *)
Lemma parse_reply_total_witness :
  parse_reply Command.Brightness [] = Raise HeaderError
  /\ parse_reply Command.Brightness [0x6f; 0x37] = Raise LengthError.
Proof.
  split.
  - destruct (parse_reply_total Command.Brightness [] eq_refl) as [_ H].
    destruct (H ltac:(vm_compute; reflexivity)) as [E|E]; [exact E | discriminate E].
  - destruct (parse_reply_total Command.Brightness [0x6f; 0x37] eq_refl) as [_ H].
    destruct (H ltac:(vm_compute; reflexivity)) as [E|E]; [discriminate E | exact E].
Defined.

(** ** Well-formed reply frames *)

Lemma len_reply_body (o : Z) (p : bytes) : len (reply_body o p) = 6 + len p.
Proof. unfold reply_body, len. rewrite !length_app. simpl List.length. lia. Qed.

Lemma reply_body_cons (o : Z) (p : bytes) :
  reply_body o p = [0x6f; 0x37; 3 + len p; 0x02; 0x00; o] ++ p.
Proof. reflexivity. Qed.

(** C1: a reply frame made of the reply header, the length byte
    [3 + len(p)], the body [0x02, Success, o, p] and the XOR of all these
    bytes decodes, for the expected opcode [o], to exactly [p], and to [None]
    when [p] is empty.  The length byte is a byte: [3 + len(p) <= 255]. *)
Theorem parse_reply_frame (cmd : Enum) (o : Z) (p : bytes) :
  value cmd = [o] -> 0 <= o < 256 -> is_bytes p -> 3 + len p <= 255 ->
  parse_reply cmd (reply_frame o p)
  = Ok (match p with [] => None | _ :: _ => Some p end).
Proof.
  intros Hcmd Ho Hp Hlen.
  pose proof (len_nonneg p) as Hp0.
  assert (Hbody : is_bytes (reply_body o p)).
  { rewrite reply_body_cons. apply is_bytes_app. split; [|assumption].
    repeat (apply is_bytes_cons; split; [lia|]). reflexivity. }
  assert (Hpre : forall i j, 0 <= i -> 0 <= j <= 6 ->
            slice (reply_frame o p) i j = slice [0x6f; 0x37; 3 + len p; 0x02; 0x00; o] i j).
  { intros i j Hi Hj. unfold reply_frame. rewrite reply_body_cons, <- app_assoc.
    apply slice_prefix; [assumption|]. len_lia. }
  assert (Hln : int_from_bytes (slice (reply_frame o p) 2 3) = 3 + len p).
  { rewrite Hpre by lia. rewrite slice_eq by lia.
    change (0 * 256 + (3 + len p) = 3 + len p). lia. }
  assert (Hlenf : len (reply_frame o p) = 7 + len p).
  { unfold reply_frame. rewrite len_app, len_reply_body. len_lia. }
  rewrite (checks_pass cmd (reply_frame o p)); rewrite ?Hln.
  - replace (slice (reply_frame o p) 6 (3 + len p + 3)) with p.
    + destruct p as [|b p']; [reflexivity|].
      destruct (3 + len (b :: p') <? 4) eqn:E; [|reflexivity].
      apply Z.ltb_lt in E. rewrite len_cons in E. pose proof (len_nonneg p'). lia.
    + unfold reply_frame. rewrite reply_body_cons, <- app_assoc.
      rewrite slice_suffix by len_lia.
      change (len [0x6f; 0x37; 3 + len p; 0x02; 0x00; o]) with 6.
      replace (6 - 6) with 0 by lia.
      replace (3 + len p + 3 - 6) with (len p) by lia.
      rewrite slice_prefix by lia. symmetry. apply slice_all.
  - unfold reply_frame. apply is_bytes_app. split; [assumption|].
    apply is_bytes_cons. split; [now apply xor_all_byte | reflexivity].
  - rewrite Hpre by lia. reflexivity.
  - lia.
  - rewrite Hpre by lia. reflexivity.
  - rewrite Hpre by lia. reflexivity.
  - rewrite Hpre by lia. rewrite Hcmd. rewrite slice_eq by lia. reflexivity.
  - unfold reply_frame. pose proof (len_nonneg (reply_body o p)) as Hb0.
    replace (3 + len p + 4) with (len (reply_body o p) + 1)
      by (rewrite len_reply_body; lia).
    replace (3 + len p + 3) with (len (reply_body o p))
      by (rewrite len_reply_body; lia).
    rewrite (slice_prefix _ _ 0) by lia. rewrite slice_all.
    rewrite slice_suffix by lia.
    replace (len (reply_body o p) - len (reply_body o p)) with 0 by lia.
    replace (len (reply_body o p) + 1 - len (reply_body o p)) with 1 by lia.
    reflexivity.
Qed.

(** The brightness at 50, and a reply without payload. *)
Lemma parse_reply_frame_witness :
  parse_reply Command.Brightness (reply_frame 0x30 [0x32]) = Ok (Some [0x32])
  /\ parse_reply Command.Brightness (reply_frame 0x30 []) = Ok None.
Proof.
  split.
  - apply (parse_reply_frame Command.Brightness 0x30 [0x32]);
      [reflexivity | lia | reflexivity | vm_compute; discriminate].
  - apply (parse_reply_frame Command.Brightness 0x30 []);
      [reflexivity | lia | reflexivity | vm_compute; discriminate].
Defined.

(** ** Bit flips *)

Lemma length_flip_bit (v : bytes) (i : nat) (k : Z) :
  List.length (flip_bit v i k) = List.length v.
Proof.
  revert i; induction v as [|b v IH]; intros [|i]; simpl; auto.
Qed.

Lemma len_flip_bit (v : bytes) (i : nat) (k : Z) : len (flip_bit v i k) = len v.
Proof. unfold len. now rewrite length_flip_bit. Qed.

Lemma skipn_flip_lt (v : bytes) (i m : nat) (k : Z) :
  (i < m)%nat -> skipn m (flip_bit v i k) = skipn m v.
Proof.
  revert i m; induction v as [|b v IH]; intros i m H.
  - destruct i; reflexivity.
  - destruct m as [|m]; [lia|]. destruct i as [|i]; simpl; [reflexivity|].
    apply IH. lia.
Qed.

Lemma skipn_flip_ge (v : bytes) (i m : nat) (k : Z) :
  (m <= i)%nat -> skipn m (flip_bit v i k) = flip_bit (skipn m v) (i - m) k.
Proof.
  revert i m; induction v as [|b v IH]; intros i m H.
  - destruct i, m; reflexivity.
  - destruct m as [|m]; [now rewrite Nat.sub_0_r|].
    destruct i as [|i]; [lia|]. simpl. apply IH. lia.
Qed.

Lemma firstn_flip_le (v : bytes) (i n : nat) (k : Z) :
  (n <= i)%nat -> firstn n (flip_bit v i k) = firstn n v.
Proof.
  revert i n; induction v as [|b v IH]; intros i n H.
  - destruct i; reflexivity.
  - destruct n as [|n]; [reflexivity|]. destruct i as [|i]; [lia|].
    simpl. f_equal. apply IH. lia.
Qed.

Lemma firstn_flip_gt (v : bytes) (i n : nat) (k : Z) :
  (i < n)%nat -> firstn n (flip_bit v i k) = flip_bit (firstn n v) i k.
Proof.
  revert i n; induction v as [|b v IH]; intros i n H.
  - destruct i, n; reflexivity.
  - destruct n as [|n]; [lia|]. destruct i as [|i]; simpl; [reflexivity|].
    f_equal. apply IH. lia.
Qed.

(** A slice that does not hold byte [i] does not see the flip. *)
Lemma slice_flip_out (v : bytes) (i : nat) (k a b : Z) :
  0 <= a -> 0 <= b -> Z.of_nat i < a \/ b <= Z.of_nat i ->
  slice (flip_bit v i k) a b = slice v a b.
Proof.
  intros Ha Hb H. rewrite !slice_eq by assumption.
  destruct (Z.lt_ge_cases (Z.of_nat i) a) as [Hia|Hia].
  - now rewrite skipn_flip_lt by lia.
  - rewrite skipn_flip_ge by lia. apply firstn_flip_le. lia.
Qed.

(** A slice that holds byte [i] holds the flipped byte. *)
Lemma slice_flip_in (v : bytes) (i : nat) (k a b : Z) :
  0 <= a -> a <= Z.of_nat i < b ->
  slice (flip_bit v i k) a b = flip_bit (slice v a b) (i - Z.to_nat a) k.
Proof.
  intros Ha H. rewrite !slice_eq by lia.
  rewrite skipn_flip_ge by lia. apply firstn_flip_gt. lia.
Qed.

Lemma lxor_pow2_neq (b k : Z) : 0 <= k -> Z.lxor b (2 ^ k) <> b.
Proof.
  intros Hk E.
  assert (H : Z.lxor b (Z.lxor b (2 ^ k)) = 0) by (rewrite E; apply Z.lxor_nilpotent).
  rewrite <- Z.lxor_assoc, Z.lxor_nilpotent, Z.lxor_0_l in H.
  pose proof (Z.pow_pos_nonneg 2 k ltac:(lia) Hk). lia.
Qed.

Lemma flip_bit_neq (v : bytes) (i : nat) (k : Z) :
  (i < List.length v)%nat -> 0 <= k -> flip_bit v i k <> v.
Proof.
  revert i; induction v as [|b v IH]; intros i Hi Hk; simpl in Hi; [lia|].
  destruct i as [|i]; simpl; intros [= E].
  - now apply (lxor_pow2_neq b k).
  - apply (IH i); [lia | assumption | exact E].
Qed.

Lemma xor_all_flip_bit (v : bytes) (i : nat) (k : Z) :
  (i < List.length v)%nat -> xor_all (flip_bit v i k) = Z.lxor (xor_all v) (2 ^ k).
Proof.
  revert i; induction v as [|b v IH]; intros i Hi; simpl in Hi; [lia|].
  destruct i as [|i]; simpl; rewrite !xor_all_cons.
  - rewrite !Z.lxor_assoc. f_equal. apply Z.lxor_comm.
  - rewrite IH by lia. now rewrite Z.lxor_assoc.
Qed.

Lemma is_bytes_flip_bit (v : bytes) (i : nat) (k : Z) :
  is_bytes v -> 0 <= k < 8 -> is_bytes (flip_bit v i k).
Proof.
  intros H Hk. revert i; induction v as [|b v IH]; intros i; [destruct i; reflexivity|].
  apply is_bytes_cons in H as [Hb Hv].
  destruct i as [|i]; simpl; apply is_bytes_cons; split; auto.
  apply lxor_byte; [assumption|].
  split; [apply Z.pow_nonneg; lia|].
  change 256 with (2 ^ 8). apply Z.pow_lt_mono_r; lia.
Qed.

Lemma flip_bit_singleton (v : bytes) (k : Z) :
  List.length v = 1%nat -> exists b, v = [b] /\ flip_bit v 0 k = [Z.lxor b (2 ^ k)].
Proof.
  destruct v as [|b [|c v]]; simpl; intros H; try discriminate.
  exists b. split; reflexivity.
Qed.

Lemma int_from_bytes_singleton (x : Z) : int_from_bytes [x] = x.
Proof. unfold int_from_bytes. cbn [fold_left]. lia. Qed.

(** C8: take a reply that decodes and flip one bit in any of its bytes but
    the last, the checksum.  Decoding then raises [ChecksumError], unless the
    flipped byte is read by an earlier check, and then that check's error:
    [HeaderError] for bytes 0 and 1, [LengthError] for byte 2,
    [FormatError] for byte 3, [ResultCodeError] for byte 4 and
    [CommandError] for byte 5. *)
Theorem bit_flip_detected (cmd : Enum) (reply : bytes) (p : option bytes)
    (i : nat) (k : Z) :
  is_bytes reply ->
  parse_reply cmd reply = Ok p ->
  Z.of_nat i < len reply - 1 ->
  0 <= k < 8 ->
  parse_reply cmd (flip_bit reply i k) = Raise (flip_error i k).
Proof.
  intros Hb Hok Hi Hk.
  destruct (parse_reply_ok_inv cmd reply p Hb Hok) as (H1 & H2 & H3 & H4 & H5 & H6 & _).
  assert (Hb' := is_bytes_flip_bit reply i k Hb Hk).
  assert (Hl' := len_flip_bit reply i k).
  assert (Hlen : len reply = Z.of_nat (List.length reply)) by reflexivity.
  assert (Hin : forall a b, 0 <= a -> a <= Z.of_nat i < b ->
            slice (flip_bit reply i k) a b <> slice reply a b).
  { intros a b Ha Hab. rewrite slice_flip_in by assumption.
    apply flip_bit_neq; [|lia]. rewrite length_slice by lia. lia. }
  assert (Hout : forall a b, 0 <= a -> 0 <= b -> Z.of_nat i < a \/ b <= Z.of_nat i ->
            slice (flip_bit reply i k) a b = slice reply a b).
  { intros. now apply slice_flip_out. }
  destruct i as [|[|[|[|[|[|i]]]]]]; cbn [flip_error].
  - apply check_header. rewrite <- H1. apply Hin; lia.
  - apply check_header. rewrite <- H1. apply Hin; lia.
  - apply check_length; [rewrite Hout by lia; exact H1|].
    rewrite Hl', <- H2. rewrite slice_flip_in by lia.
    change (2 - Z.to_nat 2)%nat with 0%nat.
    destruct (flip_bit_singleton (slice reply 2 3) k) as (b & Eb & Ef).
    { rewrite length_slice by lia. lia. }
    rewrite Ef, Eb, !int_from_bytes_singleton. apply lxor_pow2_neq. lia.
  - apply check_format.
    + rewrite Hout by lia. exact H1.
    + rewrite Hout by lia. rewrite Hl'. exact H2.
    + rewrite <- H3. apply Hin; lia.
  - rewrite (check_result_code cmd (flip_bit reply 4 k)).
    + rewrite slice_flip_in by lia. rewrite H4.
      change (4 - Z.to_nat 4)%nat with 0%nat. cbn [flip_bit value ResultCode.Success].
      now rewrite int_from_bytes_singleton, Z.lxor_0_l.
    + rewrite Hout by lia. exact H1.
    + rewrite Hout by lia. rewrite Hl'. exact H2.
    + rewrite Hout by lia. exact H3.
    + rewrite <- H4. apply Hin; lia.
  - apply check_command.
    + rewrite Hout by lia. exact H1.
    + rewrite Hout by lia. rewrite Hl'. exact H2.
    + rewrite Hout by lia. exact H3.
    + rewrite Hout by lia. exact H4.
    + rewrite <- H5. apply Hin; lia.
  - assert (Hln : int_from_bytes (slice (flip_bit reply (S (S (S (S (S (S i)))))) k) 2 3)
                  = int_from_bytes (slice reply 2 3)) by (rewrite Hout by lia; reflexivity).
    apply check_checksum; rewrite ?Hln.
    + exact Hb'.
    + rewrite Hout by lia. exact H1.
    + rewrite Hl'. exact H2.
    + rewrite Hout by lia. exact H3.
    + rewrite Hout by lia. exact H4.
    + rewrite Hout by lia. exact H5.
    + rewrite Hout by lia. rewrite H6.
      rewrite slice_flip_in by lia. rewrite xor_all_flip_bit.
      * intros [= E]. symmetry in E. revert E. apply lxor_pow2_neq. lia.
      * rewrite length_slice by lia. lia.
Qed.

(** The brightness reply [6F 37 04 02 00 30 32 5C] with bit 0 of its payload
    byte flipped, and with bit 1 of its length byte flipped. *)
Lemma bit_flip_detected_witness :
  parse_reply Command.Brightness [0x6f; 0x37; 0x04; 0x02; 0x00; 0x30; 0x33; 0x5c]
  = Raise ChecksumError
  /\ parse_reply Command.Brightness [0x6f; 0x37; 0x06; 0x02; 0x00; 0x30; 0x32; 0x5c]
     = Raise LengthError.
Proof.
  split.
  - apply (bit_flip_detected Command.Brightness
             [0x6f; 0x37; 0x04; 0x02; 0x00; 0x30; 0x32; 0x5c] (Some [0x32]) 6 0);
      [reflexivity | reflexivity | vm_compute; reflexivity | lia].
  - apply (bit_flip_detected Command.Brightness
             [0x6f; 0x37; 0x04; 0x02; 0x00; 0x30; 0x32; 0x5c] (Some [0x32]) 2 1);
      [reflexivity | reflexivity | vm_compute; reflexivity | lia].
Defined.

(** ** One exchange *)

(** [query] writes the one frame [__build_cmd] returns and decodes at most
    64 of the bytes the monitor then has on the line. *)
Lemma query_ok (rw cmd : Enum) (data c : bytes) (s : Serial) :
  build_cmd rw cmd data = Ok c ->
  query rw cmd data s
  = (parse_reply cmd (firstn 64 (device s (written s ++ [c]))),
     mkSerial (device s) (written s ++ [c])).
Proof. intros H. unfold query, bind, lift. rewrite H. reflexivity. Qed.

(** When the frame cannot be built nothing is written. *)
Lemma query_raise (rw cmd : Enum) (data : bytes) (e : exn) (s : Serial) :
  build_cmd rw cmd data = Raise e -> query rw cmd data s = (Raise e, s).
Proof. intros H. unfold query, bind, lift. rewrite H. reflexivity. Qed.

Lemma get_int_inv (cmd : Enum) (c : bytes) (v : pyval) (s s' : Serial) :
  build_cmd ReadWrite.Read cmd [] = Ok c ->
  get_int cmd s = (Ok v, s') ->
  s' = mkSerial (device s) (written s ++ [c]).
Proof.
  intros Hc. unfold get_int, bind. rewrite (query_ok _ _ _ c s Hc).
  destruct (parse_reply _ _) as [x|e]; [|discriminate].
  unfold lift. now intros [= _ <-].
Qed.

(** ** Setting a value *)

(** C5, as the code has it: for brightness, contrast, OSD transparency and
    OSD timer, setting a value outside the declared range fails with
    [ValueError] and leaves the port as it was: nothing is written. *)
Theorem set_out_of_range (n : attr) (lo hi v : Z) (s : Serial) :
  declared_range n = Some (lo, hi) ->
  v < lo \/ hi < v ->
  set_value n (Some (VInt v)) None s = (Raise ValueError, s).
Proof.
  intros Hn Hv. unfold set_value, bind.
  assert (E : setattr n (VInt v) s = (Raise ValueError, s)).
  { destruct n; try discriminate Hn; injection Hn as <- <-;
      unfold setattr, set_int_checked, in_range.
    - destruct ((0 <=? v) && (v <? 100)) eqn:E; [|reflexivity].
      apply andb_true_iff in E as [E1 E2]. apply Z.leb_le in E1.
      apply Z.ltb_lt in E2. lia.
    - destruct ((0 <=? v) && (v <? 100)) eqn:E; [|reflexivity].
      apply andb_true_iff in E as [E1 E2]. apply Z.leb_le in E1.
      apply Z.ltb_lt in E2. lia.
    - destruct ((0 <=? v) && (v <? 100)) eqn:E; [|reflexivity].
      apply andb_true_iff in E as [E1 E2]. apply Z.leb_le in E1.
      apply Z.ltb_lt in E2. lia.
    - destruct ((5 <=? v) && (v <? 60)) eqn:E; [|reflexivity].
      apply andb_true_iff in E as [E1 E2]. apply Z.leb_le in E1.
      apply Z.ltb_lt in E2. lia. }
  now rewrite E.
Qed.

(** The brightness set to 150 on a port with a silent monitor. *)
Lemma set_out_of_range_witness :
  set_value brightness (Some (VInt 150)) None (answering [])
  = (Raise ValueError, answering []).
Proof.
  apply (set_out_of_range brightness 0 99 150 (answering []));
    [reflexivity | right; lia].
Defined.

(** C5 as stated fails: the error for the brightness set to 150 is not
    [ParameterOverRange], which the module declares and never raises. *)
Lemma set_brightness_150_not_ParameterOverRange :
  fst (set_value brightness (Some (VInt 150)) None (answering []))
  <> Raise ParameterOverRange.
Proof. vm_compute. discriminate. Qed.

(** C9: the setter of the sharpness has no range check.  Set to 150, the
    sharpness is written to the monitor as the frame
    [37 51 03 EA 34 96 2D], where the brightness is refused with
    [ValueError] before anything is written. *)
Theorem set_sharpness_150_is_written (s : Serial) :
  snd (set_value sharpness (Some (VInt 150)) None s)
  = mkSerial (device s) (written s ++ [[0x37; 0x51; 0x03; 0xea; 0x34; 0x96; 0x2d]])
  /\ set_value brightness (Some (VInt 150)) None s = (Raise ValueError, s).
Proof.
  split; [|reflexivity].
  unfold set_value, setattr, set_int_unchecked, bind, lift.
  change (to_bytes_of (VInt 150) DataLength.Sharpness) with (Ok [150]).
  cbv beta iota.
  rewrite (query_ok ReadWrite.Write Command.Sharpness [150]
             [0x37; 0x51; 0x03; 0xea; 0x34; 0x96; 0x2d] s eq_refl).
  destruct (parse_reply _ _); reflexivity.
Qed.

(** ** Stepping a value *)

(** C4: for brightness, contrast, OSD transparency and OSD timer, a step
    Down at the least value of the range, and a step Up at the greatest,
    returns the value the monitor reported and leaves the port as the read
    left it: the one frame written is the read command, and the candidate
    outside the range is not written. *)
Theorem step_at_bound_holds (n : attr) (lo hi : Z) (s s' : Serial) :
  declared_range n = Some (lo, hi) ->
  (getattr n s = (Ok (VInt lo), s') ->
   set_value n None (Some UpDown.Down) s = (Ok (VInt lo), s'))
  /\ (getattr n s = (Ok (VInt hi), s') ->
      set_value n None (Some UpDown.Up) s = (Ok (VInt hi), s'))
  /\ (forall v, getattr n s = (Ok v, s') ->
      exists c, written s' = written s ++ [c] /\ slice c 3 4 = value ReadWrite.Read).
Proof.
  intros Hn.
  destruct n; try discriminate Hn; injection Hn as <- <-;
    (split; [|split]);
    try (intros H; unfold set_value, bind; rewrite H; reflexivity);
    intros v H; unfold getattr in H.
  - apply (get_int_inv _ [0x37; 0x51; 0x02; 0xeb; 0x30; 0xbf]) in H; [|reflexivity].
    subst s'. eexists. split; reflexivity.
  - apply (get_int_inv _ [0x37; 0x51; 0x02; 0xeb; 0x31; 0xbe]) in H; [|reflexivity].
    subst s'. eexists. split; reflexivity.
  - apply (get_int_inv _ [0x37; 0x51; 0x02; 0xeb; 0x80; 0x0f]) in H; [|reflexivity].
    subst s'. eexists. split; reflexivity.
  - apply (get_int_inv _ [0x37; 0x51; 0x02; 0xeb; 0x83; 0x0c]) in H; [|reflexivity].
    subst s'. eexists. split; reflexivity.
Qed.

(** The brightness at 0 stepped Down, and the OSD timer at 59 stepped Up. *)
Lemma step_at_bound_holds_witness :
  set_value brightness None (Some UpDown.Down)
    (answering [0x6f; 0x37; 0x04; 0x02; 0x00; 0x30; 0x00; 0x6e])
  = (Ok (VInt 0),
     mkSerial (fun _ => [0x6f; 0x37; 0x04; 0x02; 0x00; 0x30; 0x00; 0x6e])
              [[0x37; 0x51; 0x02; 0xeb; 0x30; 0xbf]])
  /\ set_value osd_timer None (Some UpDown.Up)
       (answering [0x6f; 0x37; 0x04; 0x02; 0x00; 0x83; 0x3b; 0xe6])
     = (Ok (VInt 59),
        mkSerial (fun _ => [0x6f; 0x37; 0x04; 0x02; 0x00; 0x83; 0x3b; 0xe6])
                 [[0x37; 0x51; 0x02; 0xeb; 0x83; 0x0c]]).
Proof.
  split.
  - apply (step_at_bound_holds brightness 0 99); reflexivity.
  - apply (step_at_bound_holds osd_timer 5 59); reflexivity.
Defined.

Lemma getitem_len {A} (T : list A) : getitem T (len T) = Raise IndexError.
Proof.
  unfold getitem. pose proof (len_nonneg T) as H.
  destruct (len T <? 0) eqn:E; [apply Z.ltb_lt in E; lia|]. rewrite E.
  unfold len. rewrite Nat2Z.id.
  now rewrite (proj2 (nth_error_None T (List.length T)) (Nat.le_refl _)).
Qed.

(** C3, what the code does at the last member: the neighbour lookup raises
    [IndexError], and the handler then subscripts the class with [0], which
    an [Enum] class looks up among its member names: [KeyError].  The step
    Up at the last member of any enumeration raises, nothing is written
    after the read, and the first member is not returned. *)
Theorem step_up_at_last_raises (n : attr) (m : Enum) (s s' : Serial) :
  getattr n s = (Ok (VEnum m), s') ->
  is_last m ->
  set_value n None (Some UpDown.Up) s = (Raise KeyError, s').
Proof.
  intros H (T & HT & Hi). unfold set_value, bind. rewrite H.
  unfold lift, eval_neighbour, eval_wrap. rewrite HT. cbn [rbind]. rewrite Hi.
  cbn [rbind UpDown.value].
  replace (len T - 1 + 1) with (len T) by lia. rewrite getitem_len.
  reflexivity.
Qed.

(** The power state [On], the last member of [State], stepped Up. *)
Lemma step_up_at_last_raises_witness :
  set_value power_state None (Some UpDown.Up)
    (answering [0x6f; 0x37; 0x04; 0x02; 0x00; 0x20; 0x01; 0x7f])
  = (Raise KeyError,
     mkSerial (fun _ => [0x6f; 0x37; 0x04; 0x02; 0x00; 0x20; 0x01; 0x7f])
              [[0x37; 0x51; 0x02; 0xeb; 0x20; 0xaf]]).
Proof.
  apply (step_up_at_last_raises power_state State.On).
  - reflexivity.
  - exists State.members. split; reflexivity.
Defined.

Lemma Enum_eqb_eq (a b : Enum) : Enum_eqb a b = true <-> a = b.
Proof.
  unfold Enum_eqb. rewrite !andb_true_iff, !String.eqb_eq, bytes_eqb_eq.
  destruct a, b; simpl. split.
  - intros [[-> ->] ->]. reflexivity.
  - intros [= -> -> ->]. auto.
Qed.

Lemma index_nonneg (l : list Enum) (x : Enum) (i : Z) : index l x = Ok i -> 0 <= i.
Proof.
  revert i; induction l as [|y l IH]; intros i; simpl; [discriminate|].
  destruct (Enum_eqb y x).
  - intros [= <-]. lia.
  - destruct (index l x) as [j|e]; simpl; [|discriminate].
    intros [= <-]. specialize (IH j eq_refl). lia.
Qed.

Lemma index_zero (y : Enum) (l : list Enum) (x : Enum) :
  index (y :: l) x = Ok 0 -> y = x.
Proof.
  simpl. destruct (Enum_eqb y x) eqn:E; [intros _; now apply Enum_eqb_eq|].
  destruct (index l x) as [j|e] eqn:Ej; simpl; [|discriminate].
  intros [= Hj]. apply index_nonneg in Ej. lia.
Qed.

Lemma lookup_class_in (c : string) (T : list Enum) :
  lookup_class c = Ok T -> In (c, T) enum_classes.
Proof.
  unfold lookup_class. destruct (find _ enum_classes) as [[c' T']|] eqn:E; [|discriminate].
  intros [= <-]. apply find_some in E as [Hin Hc]. simpl in Hc.
  apply String.eqb_eq in Hc. now subst c'.
Qed.

(** X23, the other end of C3, which holds: at the first member of an
    enumeration a step Down takes the neighbour at index [-1], which is the
    last member, and sets the property to it by the property's setter. *)
Lemma step_down_at_first_wraps (n : attr) (m : Enum) (s s' : Serial) :
  getattr n s = (Ok (VEnum m), s') ->
  is_first m ->
  exists l, is_last l /\ cls l = cls m
            /\ set_value n None (Some UpDown.Down) s
               = (_ <~ setattr n (VEnum l) ;; ret (VEnum l)) s'.
Proof.
  intros H (T & HT & Hi).
  assert (E : exists l, is_last l /\ cls l = cls m
                        /\ rtry (eval_neighbour (cls m) m UpDown.Down) is_IndexError
                                (eval_wrap (cls m) UpDown.Down) = Ok l).
  { pose proof (lookup_class_in _ _ HT) as Hin. simpl in Hin.
    repeat (destruct Hin as [Hc|Hin];
            [injection Hc as Hc <-; apply index_zero in Hi; subst m;
             match goal with
             | |- exists l, _ /\ _ /\ ?r = Ok l =>
                 let v := eval vm_compute in r in
                 match v with Ok ?x => exists x end
             end;
             split; [eexists; split; reflexivity | split; reflexivity] |]).
    contradiction. }
  destruct E as (l & Hl & Hc & E). exists l. split; [assumption|]. split; [assumption|].
  unfold set_value, bind at 1. rewrite H. unfold lift. rewrite E. reflexivity.
Qed.

(** ** Reading the brightness, end to end *)

(** C6, with the bytes the code has: reading the brightness writes
    [37 51 02 EB 30] and the XOR of these five bytes, [BF] (the length byte
    counts the direction and the opcode: 2); and when the monitor answers
    [6F 37 04 02 00 30 32] and the XOR of these seven bytes (declared length
    4, Success, opcode [0x30], data [0x32]) the reply passes validation and
    the value read is 50. *)
Theorem read_brightness_end_to_end (s : Serial) :
  device s (written s ++ [with_checksum [0x37; 0x51; 0x02; 0xeb; 0x30]])
  = with_checksum [0x6f; 0x37; 0x04; 0x02; 0x00; 0x30; 0x32] ->
  get_value brightness s
  = (Ok (VInt 50),
     mkSerial (device s) (written s ++ [with_checksum [0x37; 0x51; 0x02; 0xeb; 0x30]]))
  /\ parse_reply Command.Brightness (with_checksum [0x6f; 0x37; 0x04; 0x02; 0x00; 0x30; 0x32])
     = Ok (Some [0x32]).
Proof.
  intros H. split; [|reflexivity].
  change (with_checksum [0x37; 0x51; 0x02; 0xeb; 0x30])
    with [0x37; 0x51; 0x02; 0xeb; 0x30; 0xbf] in *.
  unfold get_value, getattr, get_int, bind.
  rewrite (query_ok ReadWrite.Read Command.Brightness []
             [0x37; 0x51; 0x02; 0xeb; 0x30; 0xbf] s eq_refl).
  rewrite H. reflexivity.
Qed.

(** A monitor that answers with the brightness at 50. *)
Lemma read_brightness_end_to_end_witness :
  get_value brightness (answering [0x6f; 0x37; 0x04; 0x02; 0x00; 0x30; 0x32; 0x5c])
  = (Ok (VInt 50),
     mkSerial (fun _ => [0x6f; 0x37; 0x04; 0x02; 0x00; 0x30; 0x32; 0x5c])
              [[0x37; 0x51; 0x02; 0xeb; 0x30; 0xbf]]).
Proof.
  apply (read_brightness_end_to_end
           (answering [0x6f; 0x37; 0x04; 0x02; 0x00; 0x30; 0x32; 0x5c])).
  reflexivity.
Defined.

(** C6 as stated fails on both counts: the command for reading the
    brightness is not [37 51 03 EB 30] with its checksum, and the reply
    [6F 37 05 02 00 30 32] with its checksum, whose length byte says 5 where
    the frame has 4 bytes between length and checksum, is rejected with
    [LengthError] and no value is read. *)
Lemma read_brightness_as_stated_fails :
  build_cmd ReadWrite.Read Command.Brightness []
  <> Ok (with_checksum [0x37; 0x51; 0x03; 0xeb; 0x30])
  /\ parse_reply Command.Brightness (with_checksum [0x6f; 0x37; 0x05; 0x02; 0x00; 0x30; 0x32])
     = Raise LengthError
  /\ fst (get_value brightness
            (answering (with_checksum [0x6f; 0x37; 0x05; 0x02; 0x00; 0x30; 0x32])))
     <> Ok (VInt 50).
Proof.
  split; [|split].
  - vm_compute. discriminate.
  - reflexivity.
  - vm_compute. discriminate.
Qed.

(** * Further properties of the codec *)

Lemma cmd_body_eq (rw cmd : Enum) (data : bytes) :
  (((([] ++ value Header.Command)
      ++ [len (value rw) + len (value cmd) + len data])
     ++ value rw) ++ value cmd) ++ data
  = cmd_body rw cmd data.
Proof. unfold cmd_body. cbn [app]. now rewrite <- !app_assoc. Qed.

Lemma build_cmd_ok (rw cmd : Enum) (data : bytes) :
  is_bytes (value rw) -> is_bytes (value cmd) -> is_bytes data ->
  len (value rw) + len (value cmd) + len data <= 255 ->
  build_cmd rw cmd data = Ok (cmd_frame rw cmd data).
Proof.
  intros Hrw Hcmd Hdata Hlen. unfold build_cmd.
  pose proof (len_nonneg (value rw)). pose proof (len_nonneg (value cmd)).
  pose proof (len_nonneg data).
  rewrite to_bytes_1 by lia. cbn [rbind]. rewrite cmd_body_eq.
  rewrite calc_check_sum_bytes.
  - reflexivity.
  - unfold cmd_body. rewrite !is_bytes_app.
    repeat split; try assumption; try reflexivity.
    apply is_bytes_cons. split; [lia|reflexivity].
Qed.

(** What [__build_cmd] returns starts with the command header and ends
    with the byte [__calc_check_sum] gave for all that precedes. *)
Lemma build_cmd_inv (rw cmd : Enum) (data c : bytes) :
  build_cmd rw cmd data = Ok c ->
  0 <= len (value rw) + len (value cmd) + len data < 256
  /\ exists sum, calc_check_sum (cmd_body rw cmd data) = Ok sum
                 /\ c = cmd_body rw cmd data ++ sum.
Proof.
  unfold build_cmd, to_bytes.
  destruct (_ <? 0) eqn:E1; [discriminate|].
  change (256 ^ Z.of_nat 1) with 256.
  destruct (256 <=? _) eqn:E2; [discriminate|].
  apply Z.ltb_ge in E1. apply Z.leb_gt in E2.
  cbn [rbind big_endian]. change ([] ++ [?x]) with [x].
  rewrite Z.mod_small by lia. rewrite cmd_body_eq.
  destruct (calc_check_sum (cmd_body rw cmd data)) as [sum|e] eqn:Es; [|discriminate].
  cbn [rbind]. intros [= <-]. split; [lia|]. exists sum. split; reflexivity.
Qed.

Lemma xor_all_with_checksum (v : bytes) : xor_all (with_checksum v) = 0.
Proof.
  unfold with_checksum. rewrite xor_all_app, xor_all_cons.
  change (xor_all []) with 0. rewrite Z.lxor_0_r. apply Z.lxor_nilpotent.
Qed.

Lemma is_bytes_with_checksum (v : bytes) : is_bytes v -> is_bytes (with_checksum v).
Proof.
  intros H. unfold with_checksum. apply is_bytes_app. split; [assumption|].
  apply is_bytes_cons. split; [now apply xor_all_byte | reflexivity].
Qed.

(** X1: a command frame the encoder returns is a byte string of
    [4 + len(rw) + len(opcode) + len(data)] bytes whose bytes, checksum
    included, XOR to zero. *)
Theorem build_cmd_xor_zero (rw cmd : Enum) (data c : bytes) :
  is_bytes (value rw) -> is_bytes (value cmd) -> is_bytes data ->
  build_cmd rw cmd data = Ok c ->
  is_bytes c
  /\ len c = 4 + len (value rw) + len (value cmd) + len data
  /\ xor_all c = 0.
Proof.
  intros Hrw Hcmd Hdata H.
  destruct (build_cmd_inv _ _ _ _ H) as (Hlen & _).
  rewrite build_cmd_ok in H by (assumption || lia). injection H as <-.
  assert (Hb : is_bytes (cmd_body rw cmd data)).
  { unfold cmd_body. rewrite !is_bytes_app. repeat split; try assumption; try reflexivity.
    apply is_bytes_cons. split; [lia|reflexivity]. }
  split; [now apply is_bytes_with_checksum|]. split; [|apply xor_all_with_checksum].
  unfold cmd_frame, with_checksum, cmd_body. rewrite !len_app, !len_cons.
  change (len (value Header.Command)) with 2. change (@len Z []) with 0. lia.
Qed.

(** The write of the brightness 50. *)
Lemma build_cmd_xor_zero_witness :
  is_bytes [0x37; 0x51; 0x03; 0xea; 0x30; 0x32; 0x8d]
  /\ len [0x37; 0x51; 0x03; 0xea; 0x30; 0x32; 0x8d] = 4 + 1 + 1 + 1
  /\ xor_all [0x37; 0x51; 0x03; 0xea; 0x30; 0x32; 0x8d] = 0.
Proof.
  apply (build_cmd_xor_zero ReadWrite.Write Command.Brightness [0x32]); reflexivity.
Defined.

(** X2: a command frame is never taken for a reply.  Whatever was encoded
    and whatever opcode is expected, decoding the frame the encoder returned
    raises [HeaderError]. *)
Theorem command_frame_is_no_reply (rw cmd cmd' : Enum) (data c : bytes) :
  build_cmd rw cmd data = Ok c ->
  parse_reply cmd' c = Raise HeaderError.
Proof.
  intros H. destruct (build_cmd_inv _ _ _ _ H) as (_ & sum & _ & ->).
  apply check_header. unfold cmd_body. rewrite <- !app_assoc.
  rewrite slice_prefix by (change (len (value Header.Command)) with 2; lia).
  discriminate.
Qed.

(** The read of the brightness, echoed back by the line. *)
Lemma command_frame_is_no_reply_witness :
  parse_reply Command.Brightness [0x37; 0x51; 0x02; 0xeb; 0x30; 0xbf] = Raise HeaderError.
Proof.
  apply (command_frame_is_no_reply ReadWrite.Read Command.Brightness Command.Brightness []).
  reflexivity.
Defined.

(** ** What the decoder accepts *)

Lemma slice_app_last {A} (a : list A) (c : A) :
  slice (a ++ [c]) (len a) (len a + 1) = [c].
Proof.
  pose proof (len_nonneg a). rewrite slice_suffix by lia.
  replace (len a - len a) with 0 by lia. replace (len a + 1 - len a) with 1 by lia.
  reflexivity.
Qed.

Lemma slice_app_first {A} (a b : list A) : slice (a ++ b) 0 (len a) = a.
Proof.
  pose proof (len_nonneg a). rewrite slice_prefix by lia. apply slice_all.
Qed.

(** X3: the decoder accepts well-formed frames only.  A reply that decodes
    for the one-byte opcode [o] is the reply header, the length byte
    [3 + len(p)], the bytes [0x02, 0x00, o], a payload [p] and the XOR of
    all these; the result is [p], or [None] when [p] is empty.  The one
    other reply that decodes is [6F 37 02 02 00 58] for opcode [0x58], where
    the opcode byte is read as the checksum as well. *)
Theorem parse_reply_accepts_frames_only (cmd : Enum) (o : Z) (reply : bytes)
    (r : option bytes) :
  is_bytes reply -> value cmd = [o] -> parse_reply cmd reply = Ok r ->
  (exists p, reply = reply_frame o p
             /\ r = match p with [] => None | _ :: _ => Some p end)
  \/ (o = 0x58 /\ reply = [0x6f; 0x37; 0x02; 0x02; 0x00; 0x58] /\ r = None).
Proof.
  intros Hb Hcmd Hok.
  destruct (parse_reply_ok_inv cmd reply r Hb Hok) as (H1 & H2 & H3 & H4 & H5 & H6 & Hr).
  rewrite Hcmd in H5.
  destruct reply as [|b0 [|b1 [|b2 [|b3 [|b4 [|b5 rest]]]]]];
    try (rewrite slice_eq in H5 by lia; discriminate H5).
  rewrite slice_eq in H1, H3, H4, H5 by lia.
  injection H1 as -> ->. injection H3 as ->. injection H4 as ->. injection H5 as ->.
  assert (Hln : int_from_bytes (slice (0x6f :: 0x37 :: b2 :: 0x02 :: 0x00 :: o :: rest) 2 3) = b2).
  { rewrite slice_eq by lia. apply int_from_bytes_singleton. }
  rewrite Hln in *. clear Hln.
  rewrite !len_cons in H2.
  destruct rest as [|x rest'].
  - right. change (@len Z []) with 0 in H2.
    assert (Hb2 : b2 = 2) by lia. clear H2. subst b2.
    rewrite slice_eq in H6 by lia. injection H6 as ->.
    repeat split. exact Hr.
  - left. destruct (exists_last (l := x :: rest') ltac:(discriminate)) as [p [c Hrest]].
    rewrite Hrest in *. clear x rest' Hrest.
    exists p. rewrite len_app, len_cons in H2.
    change (@len Z []) with 0 in H2.
    assert (Hb2 : b2 = 3 + len p) by lia. clear H2. subst b2.
    change (0x6f :: 0x37 :: 3 + len p :: 0x02 :: 0x00 :: o :: p ++ [c])
      with (reply_body o p ++ [c]) in *.
    replace (3 + len p + 4) with (len (reply_body o p) + 1) in H6
      by (rewrite len_reply_body; lia).
    replace (3 + len p + 3) with (len (reply_body o p)) in H6, Hr
      by (rewrite len_reply_body; lia).
    rewrite slice_app_last, slice_app_first in H6. injection H6 as ->.
    split; [reflexivity|]. rewrite Hr.
    destruct p as [|b p']; [reflexivity|].
    destruct (3 + len (b :: p') <? 4) eqn:E.
    { apply Z.ltb_lt in E. rewrite len_cons in E. pose proof (len_nonneg p'). lia. }
    f_equal. rewrite reply_body_cons, <- app_assoc.
    rewrite slice_suffix
      by (rewrite len_app; change (len [0x6f; 0x37; 3 + len (b :: p'); 0x02; 0x00; o]) with 6;
          pose proof (len_nonneg (b :: p')); lia).
    rewrite len_app.
    change (len [0x6f; 0x37; 3 + len (b :: p'); 0x02; 0x00; o]) with 6.
    replace (6 - 6) with 0 by lia.
    replace (6 + len (b :: p') - 6) with (len (b :: p')) by lia.
    apply slice_app_first.
Qed.

(** The reply with the brightness at 50 is the well-formed frame for
    opcode [0x30] and payload [0x32]. *)
Lemma parse_reply_accepts_frames_only_witness :
  (exists p, [0x6f; 0x37; 0x04; 0x02; 0x00; 0x30; 0x32; 0x5c] = reply_frame 0x30 p
             /\ Some [0x32] = match p with [] => None | _ :: _ => Some p end)
  \/ (0x30 = 0x58
      /\ [0x6f; 0x37; 0x04; 0x02; 0x00; 0x30; 0x32; 0x5c]
         = [0x6f; 0x37; 0x02; 0x02; 0x00; 0x58]
      /\ Some [0x32] = None).
Proof.
  apply (parse_reply_accepts_frames_only Command.Brightness 0x30
           [0x6f; 0x37; 0x04; 0x02; 0x00; 0x30; 0x32; 0x5c] (Some [0x32]));
    reflexivity.
Defined.

(** ** Replies of the wrong length *)

Lemma slice_firstn {A} (l : list A) (n : nat) (i j : Z) :
  0 <= i -> 0 <= j <= Z.of_nat n -> slice (firstn n l) i j = slice l i j.
Proof.
  intros Hi Hj. destruct (Nat.le_gt_cases (List.length l) n) as [Hn|Hn].
  - now rewrite firstn_all2.
  - replace (slice l i j) with (slice (firstn n l ++ skipn n l) i j)
      by now rewrite firstn_skipn.
    symmetry. apply slice_prefix; [assumption|].
    unfold len. rewrite length_firstn. lia.
Qed.

Lemma valid_reply_len (cmd : Enum) (reply : bytes) (r : option bytes) :
  is_bytes reply -> parse_reply cmd reply = Ok r -> 5 <= len reply.
Proof.
  intros Hb Hok.
  destruct (parse_reply_ok_inv cmd reply r Hb Hok) as (_ & _ & _ & H4 & _).
  apply (f_equal (@List.length Z)) in H4. rewrite length_slice in H4 by lia.
  cbn in H4. unfold len. lia.
Qed.

Lemma parse_reply_truncated (cmd : Enum) (reply : bytes) (r : option bytes) (n : nat) :
  is_bytes reply -> parse_reply cmd reply = Ok r -> (n < List.length reply)%nat ->
  parse_reply cmd (firstn n reply)
  = Raise (if (n <? 2)%nat then HeaderError else LengthError).
Proof.
  intros Hb Hok Hn.
  destruct (parse_reply_ok_inv cmd reply r Hb Hok) as (H1 & H2 & _).
  assert (Hlen : len (firstn n reply) = Z.of_nat n).
  { unfold len. rewrite length_firstn. lia. }
  destruct (n <? 2)%nat eqn:En.
  - apply Nat.ltb_lt in En. apply check_header. intros E.
    apply (f_equal (@List.length Z)) in E. rewrite length_slice in E by lia.
    rewrite length_firstn in E. cbn in E. lia.
  - apply Nat.ltb_ge in En. apply check_length.
    + rewrite slice_firstn by lia. exact H1.
    + rewrite Hlen. destruct (Nat.eq_dec n 2) as [->|Hn2].
      * rewrite slice_eq by lia.
        rewrite (skipn_all2 (firstn 2 reply) (n := Z.to_nat 2))
          by (rewrite length_firstn; lia).
        rewrite firstn_nil. cbn. lia.
      * rewrite slice_firstn by lia. rewrite H2. unfold len. lia.
Qed.

Lemma parse_reply_extended (cmd : Enum) (reply : bytes) (r : option bytes)
    (x : Z) (extra : bytes) :
  is_bytes reply -> parse_reply cmd reply = Ok r ->
  parse_reply cmd (reply ++ x :: extra) = Raise LengthError.
Proof.
  intros Hb Hok.
  pose proof (valid_reply_len cmd reply r Hb Hok) as H5.
  destruct (parse_reply_ok_inv cmd reply r Hb Hok) as (H1 & H2 & _).
  apply check_length.
  - rewrite slice_prefix by lia. exact H1.
  - rewrite slice_prefix by lia. rewrite H2, len_app, len_cons.
    pose proof (len_nonneg extra). lia.
Qed.

(** X4: a reply is accepted at its exact length only.  Of a reply that
    decodes, every proper prefix is rejected, with [HeaderError] when fewer
    than 2 bytes are left and with [LengthError] otherwise, and so is the
    reply followed by any further byte, with [LengthError]. *)
Theorem reply_exact_length_only (cmd : Enum) (reply : bytes) (r : option bytes) :
  is_bytes reply -> parse_reply cmd reply = Ok r ->
  (forall n, (n < List.length reply)%nat ->
     parse_reply cmd (firstn n reply)
     = Raise (if (n <? 2)%nat then HeaderError else LengthError))
  /\ (forall x extra, parse_reply cmd (reply ++ x :: extra) = Raise LengthError).
Proof.
  intros Hb Hok. split.
  - intros n Hn. now apply (parse_reply_truncated cmd reply r).
  - intros x extra. now apply (parse_reply_extended cmd reply r).
Qed.

(** The brightness reply cut after 7 bytes, and followed by a stray byte. *)
Lemma reply_exact_length_only_witness :
  parse_reply Command.Brightness [0x6f; 0x37; 0x04; 0x02; 0x00; 0x30; 0x32]
  = Raise LengthError
  /\ parse_reply Command.Brightness [0x6f; 0x37; 0x04; 0x02; 0x00; 0x30; 0x32; 0x5c; 0x00]
     = Raise LengthError.
Proof.
  destruct (reply_exact_length_only Command.Brightness
              [0x6f; 0x37; 0x04; 0x02; 0x00; 0x30; 0x32; 0x5c] (Some [0x32])
              eq_refl eq_refl) as [Hcut Hmore].
  split.
  - apply (Hcut 7%nat). cbn. lia.
  - apply (Hmore 0x00 []).
Defined.

(** X5: [query] reads at most 64 bytes, so a reply of more than 64 bytes,
    however well formed, is lost: when the monitor answers a command with a
    reply that would decode but is longer than 64 bytes, [query] raises
    [LengthError]. *)
Theorem query_long_reply_lost (rw cmd : Enum) (data c out : bytes)
    (r : option bytes) (s : Serial) :
  build_cmd rw cmd data = Ok c ->
  device s (written s ++ [c]) = out ->
  is_bytes out -> parse_reply cmd out = Ok r -> 64 < len out ->
  query rw cmd data s = (Raise LengthError, mkSerial (device s) (written s ++ [c])).
Proof.
  intros Hc Hdev Hb Hok Hlen. rewrite (query_ok _ _ _ c s Hc), Hdev.
  rewrite (parse_reply_truncated cmd out r 64 Hb Hok) by (unfold len in Hlen; lia).
  reflexivity.
Qed.

(** A monitor that answers the read of the monitor name with a name of 58
    characters: a frame of 65 bytes. *)
Lemma query_long_reply_lost_witness :
  query ReadWrite.Read Command.MonitorName []
    (answering (reply_frame 0x01 (repeat 0x41 58)))
  = (Raise LengthError,
     mkSerial (fun _ => reply_frame 0x01 (repeat 0x41 58))
              [[0x37; 0x51; 0x02; 0xeb; 0x01; 0x8e]]).
Proof.
  apply (query_long_reply_lost ReadWrite.Read Command.MonitorName []
           [0x37; 0x51; 0x02; 0xeb; 0x01; 0x8e]
           (reply_frame 0x01 (repeat 0x41 58)) (Some (repeat 0x41 58))
           (answering (reply_frame 0x01 (repeat 0x41 58))));
    [reflexivity | reflexivity | reflexivity | vm_compute; reflexivity
     | vm_compute; reflexivity].
Defined.

(** * Values on the wire *)

Lemma int_from_bytes_app (a : bytes) (x : Z) :
  int_from_bytes (a ++ [x]) = int_from_bytes a * 256 + x.
Proof. unfold int_from_bytes. now rewrite fold_left_app. Qed.

Lemma big_endian_spec (n : nat) (v : Z) :
  0 <= v < 256 ^ Z.of_nat n ->
  is_bytes (big_endian n v)
  /\ List.length (big_endian n v) = n
  /\ int_from_bytes (big_endian n v) = v.
Proof.
  revert v; induction n as [|n IH]; intros v Hv.
  - change (256 ^ Z.of_nat 0) with 1 in Hv. repeat split. cbn. lia.
  - rewrite Nat2Z.inj_succ, Z.pow_succ_r in Hv by lia.
    destruct (IH (v / 256)) as (Hb & Hl & Hi).
    { split; [apply Z.div_pos; lia | apply Z.div_lt_upper_bound; lia]. }
    cbn [big_endian]. split; [|split].
    + apply is_bytes_app. split; [assumption|].
      apply is_bytes_cons. split; [apply Z.mod_pos_bound; lia | reflexivity].
    + rewrite length_app, Hl. cbn. lia.
    + rewrite int_from_bytes_app, Hi.
      pose proof (Z.div_mod v 256 ltac:(lia)). lia.
Qed.

(** X6: the integer codec round trips.  When [v.to_bytes(n, 'big')]
    succeeds, as in the setter of an [int] property, the result is [n]
    bytes, and read back as a getter reads a payload,
    [int.from_bytes(..., 'big')], it is [v] again. *)
Theorem int_codec_round_trip (v : Z) (n : nat) (d : bytes) :
  to_bytes_of (VInt v) n = Ok d ->
  is_bytes d /\ len d = Z.of_nat n /\ int_from_query (Some d) = Ok (VInt v).
Proof.
  cbn [to_bytes_of]. unfold to_bytes.
  destruct (v <? 0) eqn:E1; [discriminate|].
  destruct (256 ^ Z.of_nat n <=? v) eqn:E2; [discriminate|].
  intros [= <-]. apply Z.ltb_ge in E1. apply Z.leb_gt in E2.
  destruct (big_endian_spec n v ltac:(lia)) as (Hb & Hl & Hi).
  split; [assumption|]. split; [unfold len; now rewrite Hl|].
  cbn [int_from_query]. now rewrite Hi.
Qed.

(** The backlight hours 1000 on two bytes. *)
Lemma int_codec_round_trip_witness :
  is_bytes [0x03; 0xe8] /\ len [0x03; 0xe8] = 2
  /\ int_from_query (Some [0x03; 0xe8]) = Ok (VInt 1000).
Proof.
  apply (int_codec_round_trip 1000 2 [0x03; 0xe8]). reflexivity.
Defined.

Lemma enum_call_inv (T : list Enum) (x : option bytes) (m : Enum) :
  enum_call T x = Ok m -> In m T /\ x = Some (value m).
Proof.
  destruct x as [b|]; [|discriminate]. cbn [enum_call].
  destruct (find _ T) as [m'|] eqn:E; [|discriminate].
  intros [= <-]. apply find_some in E as [Hin Hv].
  apply bytes_eqb_eq in Hv. now rewrite Hv.
Qed.

(** X7: the enumeration codec round trips, both ways.  In every enumeration
    of the module no two members share a value, so the value of a member,
    decoded as a getter decodes a payload, is that member; and whatever
    decodes to a member is that member's value. *)
Theorem enum_codec_round_trip (c : string) (T : list Enum) (m : Enum) :
  In (c, T) enum_classes ->
  (In m T -> enum_call T (Some (value m)) = Ok m /\ cls m = c)
  /\ (forall x, enum_call T x = Ok m -> In m T /\ x = Some (value m)).
Proof.
  intros Hc. split; [|intros x; apply enum_call_inv].
  assert (Hall : forallb
            (fun cT => forallb
               (fun m => match enum_call (snd cT) (Some (value m)) with
                         | Ok m' => Enum_eqb m' m && String.eqb (cls m) (fst cT)
                         | Raise _ => false
                         end) (snd cT)) enum_classes = true)
    by (vm_compute; reflexivity).
  intros Hm.
  rewrite forallb_forall in Hall. specialize (Hall _ Hc). cbn [fst snd] in Hall.
  rewrite forallb_forall in Hall. specialize (Hall _ Hm).
  destruct (enum_call T (Some (value m))) as [m'|e]; [|discriminate].
  apply andb_true_iff in Hall as [H1 H2].
  apply Enum_eqb_eq in H1. apply String.eqb_eq in H2. now subst.
Qed.

(** The video input [DP1], whose value is four bytes. *)
Lemma enum_codec_round_trip_witness :
  enum_call VideoInput.members (Some [0x08; 0x00; 0x00; 0x00]) = Ok VideoInput.DP1
  /\ cls VideoInput.DP1 = "VideoInput".
Proof.
  apply (enum_codec_round_trip "VideoInput" VideoInput.members VideoInput.DP1).
  - cbn. tauto.
  - cbn. tauto.
Defined.

(** * Properties, one exchange each *)

Lemma calc_check_sum_inv (v sum : bytes) : calc_check_sum v = Ok sum -> sum = [xor_all v].
Proof.
  unfold calc_check_sum, to_bytes.
  change (fold_left (fun s i => Z.lxor s i) v 0) with (xor_all v).
  destruct (xor_all v <? 0) eqn:E1; [discriminate|].
  change (256 ^ Z.of_nat 1) with 256.
  destruct (256 <=? xor_all v) eqn:E2; [discriminate|].
  apply Z.ltb_ge in E1. apply Z.leb_gt in E2.
  intros [= <-]. cbn [big_endian app]. now rewrite Z.mod_small by lia.
Qed.

Lemma build_cmd_ok_inv (rw cmd : Enum) (data c : bytes) :
  build_cmd rw cmd data = Ok c -> c = cmd_frame rw cmd data.
Proof.
  intros H. destruct (build_cmd_inv _ _ _ _ H) as (_ & sum & Hs & ->).
  apply calc_check_sum_inv in Hs. now subst sum.
Qed.

(** The port after a [query]: as before when the frame could not be built,
    and one frame longer otherwise, whatever the monitor answers. *)
Lemma query_port (rw cmd : Enum) (data : bytes) (s : Serial) :
  (exists e, query rw cmd data s = (Raise e, s))
  \/ (build_cmd rw cmd data = Ok (cmd_frame rw cmd data)
      /\ query rw cmd data s
         = (parse_reply cmd (firstn 64 (device s (written s ++ [cmd_frame rw cmd data]))),
            mkSerial (device s) (written s ++ [cmd_frame rw cmd data]))).
Proof.
  destruct (build_cmd rw cmd data) as [c|e] eqn:E.
  - right. pose proof (build_cmd_ok_inv _ _ _ _ E) as ->.
    split; [reflexivity|]. now apply query_ok.
  - left. exists e. now apply query_raise.
Qed.

Lemma get_int_port (cmd : Enum) (s : Serial) :
  build_cmd ReadWrite.Read cmd [] = Ok (cmd_frame ReadWrite.Read cmd []) ->
  snd (get_int cmd s)
  = mkSerial (device s) (written s ++ [cmd_frame ReadWrite.Read cmd []]).
Proof.
  intros H. unfold get_int, bind. rewrite (query_ok _ _ _ _ s H).
  destruct (parse_reply _ _); reflexivity.
Qed.

Lemma get_enum_port (T : list Enum) (cmd : Enum) (data : bytes) (s : Serial) :
  build_cmd ReadWrite.Read cmd data = Ok (cmd_frame ReadWrite.Read cmd data) ->
  snd ((x <~ query ReadWrite.Read cmd data ;;
        m <~ lift (enum_call T x) ;;
        ret (VEnum m)) s)
  = mkSerial (device s) (written s ++ [cmd_frame ReadWrite.Read cmd data]).
Proof.
  intros H. unfold bind. rewrite (query_ok _ _ _ _ s H).
  destruct (parse_reply _ _) as [x|e]; [|reflexivity].
  unfold lift. destruct (enum_call T x); reflexivity.
Qed.

(** X8: every getter is one exchange.  Whatever the monitor answers, and
    whether the getter returns or raises, reading a property writes exactly
    one frame: the Read command of the property's own opcode, with the
    window as data for the PxP sub inputs and no data otherwise. *)
Theorem getter_writes_one_read_frame (n : attr) (s : Serial) :
  snd (get_value n s)
  = mkSerial (device s)
             (written s ++ [cmd_frame ReadWrite.Read (command_of n) (read_data n)]).
Proof.
  unfold get_value.
  destruct n; cbn [getattr command_of read_data];
    first [ apply get_int_port; reflexivity
          | apply (get_enum_port _ _ []); reflexivity
          | apply get_enum_port; reflexivity ].
Qed.

Lemma write_port (cmd : Enum) (d : bytes) (s : Serial) :
  (exists e, (_ <~ query ReadWrite.Write cmd d ;; ret tt) s = (Raise e, s))
  \/ snd ((_ <~ query ReadWrite.Write cmd d ;; ret tt) s)
     = mkSerial (device s) (written s ++ [cmd_frame ReadWrite.Write cmd d]).
Proof.
  unfold bind. destruct (query_port ReadWrite.Write cmd d s) as [(e & ->) | (_ & ->)].
  - left. now exists e.
  - right. destruct (parse_reply _ _); reflexivity.
Qed.

Lemma lift_write_port (r : result bytes) (cmd : Enum) (s : Serial) :
  (exists e, (d <~ lift r ;; _ <~ query ReadWrite.Write cmd d ;; ret tt) s = (Raise e, s))
  \/ (exists d, snd ((d <~ lift r ;; _ <~ query ReadWrite.Write cmd d ;; ret tt) s)
                = mkSerial (device s) (written s ++ [cmd_frame ReadWrite.Write cmd d])).
Proof.
  destruct r as [d|e].
  - destruct (write_port cmd d s) as [H|H]; [left; exact H | right; exists d; exact H].
  - left. exists e. reflexivity.
Qed.

(** X9: every setter is at most one exchange.  Setting a property either
    raises with nothing written, or writes exactly one frame, a Write
    command of the property's own opcode. *)
Theorem setter_writes_at_most_one_frame (n : attr) (v : pyval) (s : Serial) :
  (exists e, set_value n (Some v) None s = (Raise e, s))
  \/ (exists d, snd (set_value n (Some v) None s)
                = mkSerial (device s)
                           (written s ++ [cmd_frame ReadWrite.Write (command_of n) d])).
Proof.
  assert (H : (exists e, setattr n v s = (Raise e, s))
              \/ (exists d, snd (setattr n v s)
                            = mkSerial (device s)
                                (written s ++ [cmd_frame ReadWrite.Write (command_of n) d]))).
  { destruct n; cbn [setattr command_of];
      unfold set_enum, set_int_checked, set_int_unchecked, set_pxp_sub_input;
      try apply lift_write_port;
      try (left; eexists; reflexivity).
    all: destruct (negb (in_range v _ _));
      [left; eexists; reflexivity | apply lift_write_port]. }
  unfold set_value, bind.
  destruct H as [(e & ->) | (d & H)].
  - left. now exists e.
  - right. exists d. rewrite <- H. destruct (setattr n v s) as [[[]|e] s']; reflexivity.
Qed.

(** * Setting and stepping, beyond the bounds *)

Lemma parse_reply_not_ValueError (cmd : Enum) (reply : bytes) (e : exn) :
  parse_reply cmd reply = Raise e -> is_ValueError e = false.
Proof.
  unfold parse_reply, calc_check_sum, to_bytes.
  repeat match goal with
         | |- context [if ?c then _ else _] => destruct c; cbn [rbind]
         end;
    intros [= <-]; reflexivity.
Qed.

Lemma write_byte (cmd : Enum) (o v : Z) (s : Serial) :
  value cmd = [o] -> 0 <= o < 256 -> 0 <= v < 256 ->
  (_ <~ query ReadWrite.Write cmd [v] ;; ret tt) s = write_result cmd [v] s.
Proof.
  intros Hcmd Ho Hv. unfold bind, write_result.
  rewrite (query_ok _ _ _ (cmd_frame ReadWrite.Write cmd [v]) s).
  - destruct (parse_reply _ _); reflexivity.
  - apply build_cmd_ok; rewrite ?Hcmd.
    + reflexivity.
    + apply is_bytes_cons. split; [lia | reflexivity].
    + apply is_bytes_cons. split; [lia | reflexivity].
    + vm_compute. discriminate.
Qed.

Lemma set_int_checked_in_range (lo hi : Z) (cmd : Enum) (o v : Z) (s : Serial) :
  value cmd = [o] -> 0 <= o < 256 -> 0 <= lo -> hi <= 256 -> lo <= v < hi ->
  set_int_checked lo hi cmd 1 (VInt v) s = write_result cmd [v] s.
Proof.
  intros Hcmd Ho Hlo Hhi Hv. unfold set_int_checked, in_range.
  replace ((lo <=? v) && (v <? hi)) with true
    by (symmetry; apply andb_true_iff; split; [apply Z.leb_le | apply Z.ltb_lt]; lia).
  cbn [negb to_bytes_of]. rewrite to_bytes_1 by lia.
  change ((_ <~ query ReadWrite.Write cmd [v] ;; ret tt) s = write_result cmd [v] s).
  apply (write_byte cmd o); [assumption | assumption | lia].
Qed.

Lemma set_checked_in_range (n : attr) (lo hi v : Z) (s : Serial) :
  declared_range n = Some (lo, hi) -> lo <= v <= hi ->
  setattr n (VInt v) s = write_result (command_of n) [v] s.
Proof.
  intros Hn Hv.
  destruct n; try discriminate Hn; injection Hn as <- <-; cbn [setattr command_of].
  - apply (set_int_checked_in_range 0 100 Command.Brightness 0x30); (reflexivity || lia).
  - apply (set_int_checked_in_range 0 100 Command.Contrast 0x31); (reflexivity || lia).
  - apply (set_int_checked_in_range 0 100 Command.OSDTransparency 0x80); (reflexivity || lia).
  - apply (set_int_checked_in_range 5 60 Command.OSDTimer 0x83); (reflexivity || lia).
Qed.

(** X10: setting brightness, contrast, OSD transparency or OSD timer to a
    value inside the declared range writes the one frame
    [37 51 03 EA opcode value checksum]; the call returns the value when the
    reply validates, whatever payload it carries, and raises the error of
    the reply otherwise. *)
Theorem set_in_range (n : attr) (lo hi v : Z) (s : Serial) :
  declared_range n = Some (lo, hi) -> lo <= v <= hi ->
  set_value n (Some (VInt v)) None s
  = (match parse_reply (command_of n)
             (firstn 64 (device s (written s
                ++ [cmd_frame ReadWrite.Write (command_of n) [v]]))) with
     | Ok _ => Ok (VInt v)
     | Raise e => Raise e
     end,
     mkSerial (device s)
              (written s ++ [cmd_frame ReadWrite.Write (command_of n) [v]])).
Proof.
  intros Hn Hv. unfold set_value, bind.
  rewrite (set_checked_in_range n lo hi v s Hn Hv). unfold write_result.
  destruct (parse_reply _ _); reflexivity.
Qed.

(** The brightness set to 50, acknowledged by the monitor. *)
Lemma set_in_range_witness :
  set_value brightness (Some (VInt 50)) None
    (answering [0x6f; 0x37; 0x03; 0x02; 0x00; 0x30; 0x69])
  = (Ok (VInt 50),
     mkSerial (fun _ => [0x6f; 0x37; 0x03; 0x02; 0x00; 0x30; 0x69])
              [[0x37; 0x51; 0x03; 0xea; 0x30; 0x32; 0x8d]]).
Proof.
  apply (set_in_range brightness 0 99 50
           (answering [0x6f; 0x37; 0x03; 0x02; 0x00; 0x30; 0x69]));
    [reflexivity | lia].
Defined.

(** X11: a step inside the range is a read followed by a write.  When the
    monitor reports the value [v] and [v] plus the step is inside the
    declared range, the step writes the new value as a set does; it returns
    the new value when the reply to the write validates and raises that
    reply's error otherwise: the handler for [ValueError] holds the old
    value for a value out of range only. *)
Theorem step_in_range (n : attr) (lo hi v : Z) (ud : UpDown.t) (s s' : Serial) :
  declared_range n = Some (lo, hi) ->
  getattr n s = (Ok (VInt v), s') ->
  lo <= v + UpDown.value ud <= hi ->
  set_value n None (Some ud) s
  = (match parse_reply (command_of n)
             (firstn 64 (device s' (written s'
                ++ [cmd_frame ReadWrite.Write (command_of n) [v + UpDown.value ud]]))) with
     | Ok _ => Ok (VInt (v + UpDown.value ud))
     | Raise e => Raise e
     end,
     mkSerial (device s')
              (written s' ++ [cmd_frame ReadWrite.Write (command_of n) [v + UpDown.value ud]])).
Proof.
  intros Hn Hget Hv. unfold set_value, bind at 1. rewrite Hget.
  unfold try_except, bind.
  rewrite (set_checked_in_range n lo hi _ s' Hn Hv). unfold write_result.
  destruct (parse_reply _ _) as [x|e] eqn:E; [reflexivity|].
  now rewrite (parse_reply_not_ValueError _ _ _ E).
Qed.

(** The brightness stepped Up from 50 on a monitor that answers every frame
    with the brightness reply for 50: the write of 51 is sent, and its reply,
    which validates, ends the step. *)
Lemma step_in_range_witness :
  set_value brightness None (Some UpDown.Up)
    (answering [0x6f; 0x37; 0x04; 0x02; 0x00; 0x30; 0x32; 0x5c])
  = (Ok (VInt 51),
     mkSerial (fun _ => [0x6f; 0x37; 0x04; 0x02; 0x00; 0x30; 0x32; 0x5c])
              [[0x37; 0x51; 0x02; 0xeb; 0x30; 0xbf];
               [0x37; 0x51; 0x03; 0xea; 0x30; 0x33; 0x8c]]).
Proof.
  apply (step_in_range brightness 0 99 50 UpDown.Up
           (answering [0x6f; 0x37; 0x04; 0x02; 0x00; 0x30; 0x32; 0x5c])
           (mkSerial (fun _ => [0x6f; 0x37; 0x04; 0x02; 0x00; 0x30; 0x32; 0x5c])
                     [[0x37; 0x51; 0x02; 0xeb; 0x30; 0xbf]]));
    [reflexivity | reflexivity | cbn; lia].
Defined.

Lemma to_bytes_1_overflow (z : Z) : z < 0 \/ 255 < z -> to_bytes z 1 = Raise OverflowError.
Proof.
  intros H. unfold to_bytes. destruct (z <? 0) eqn:E1; [reflexivity|].
  apply Z.ltb_ge in E1. change (256 ^ Z.of_nat 1) with 256.
  destruct (256 <=? z) eqn:E2; [reflexivity|]. apply Z.leb_gt in E2. lia.
Qed.

(** X12: the sharpness is stepped without bounds.  Whatever value the
    monitor reports, the step writes the next value as long as it fits one
    byte, 100 and more included; and past 0 or 255 the step does not hold
    the old value as the checked properties do: it raises [OverflowError],
    with nothing written after the read. *)
Theorem step_sharpness_unbounded (v : Z) (ud : UpDown.t) (s s' : Serial) :
  getattr sharpness s = (Ok (VInt v), s') ->
  (0 <= v + UpDown.value ud <= 255 ->
   set_value sharpness None (Some ud) s
   = (match parse_reply Command.Sharpness
              (firstn 64 (device s' (written s'
                 ++ [cmd_frame ReadWrite.Write Command.Sharpness [v + UpDown.value ud]]))) with
      | Ok _ => Ok (VInt (v + UpDown.value ud))
      | Raise e => Raise e
      end,
      mkSerial (device s')
               (written s' ++ [cmd_frame ReadWrite.Write Command.Sharpness [v + UpDown.value ud]])))
  /\ (v + UpDown.value ud < 0 \/ 255 < v + UpDown.value ud ->
      set_value sharpness None (Some ud) s = (Raise OverflowError, s')).
Proof.
  intros Hget. split; intros Hv; unfold set_value, bind at 1; rewrite Hget;
    unfold try_except, bind at 1; cbn [setattr]; unfold set_int_unchecked;
    cbn [to_bytes_of].
  - rewrite to_bytes_1 by lia.
    change (bind (lift (Ok [v + UpDown.value ud]))
              (fun d => _ <~ query ReadWrite.Write Command.Sharpness d ;; ret tt) s')
      with ((_ <~ query ReadWrite.Write Command.Sharpness [v + UpDown.value ud] ;; ret tt) s').
    rewrite (write_byte Command.Sharpness 0x34) by (reflexivity || lia).
    unfold write_result.
    destruct (parse_reply _ _) as [x|e] eqn:E; [reflexivity|].
    now rewrite (parse_reply_not_ValueError _ _ _ E).
  - rewrite to_bytes_1_overflow by assumption. reflexivity.
Qed.

(** The sharpness at 99 stepped Up, and at 0 stepped Down. *)
Lemma step_sharpness_unbounded_witness :
  snd (set_value sharpness None (Some UpDown.Up)
         (answering [0x6f; 0x37; 0x04; 0x02; 0x00; 0x34; 0x63; 0x09]))
  = mkSerial (fun _ => [0x6f; 0x37; 0x04; 0x02; 0x00; 0x34; 0x63; 0x09])
             [[0x37; 0x51; 0x02; 0xeb; 0x34; 0xbb];
              [0x37; 0x51; 0x03; 0xea; 0x34; 0x64; 0xdf]]
  /\ set_value sharpness None (Some UpDown.Down)
       (answering [0x6f; 0x37; 0x04; 0x02; 0x00; 0x34; 0x00; 0x6a])
     = (Raise OverflowError,
        mkSerial (fun _ => [0x6f; 0x37; 0x04; 0x02; 0x00; 0x34; 0x00; 0x6a])
                 [[0x37; 0x51; 0x02; 0xeb; 0x34; 0xbb]]).
Proof.
  split.
  - rewrite (proj1 (step_sharpness_unbounded 99 UpDown.Up
               (answering [0x6f; 0x37; 0x04; 0x02; 0x00; 0x34; 0x63; 0x09])
               (mkSerial (fun _ => [0x6f; 0x37; 0x04; 0x02; 0x00; 0x34; 0x63; 0x09])
                         [[0x37; 0x51; 0x02; 0xeb; 0x34; 0xbb]])
               eq_refl)); [reflexivity | cbn; lia].
  - apply (step_sharpness_unbounded 0 UpDown.Down
             (answering [0x6f; 0x37; 0x04; 0x02; 0x00; 0x34; 0x00; 0x6a])
             (mkSerial (fun _ => [0x6f; 0x37; 0x04; 0x02; 0x00; 0x34; 0x00; 0x6a])
                       [[0x37; 0x51; 0x02; 0xeb; 0x34; 0xbb]])
             eq_refl).
    left. cbn. lia.
Defined.

(** X13: the backlight hours are read-only.  Setting them raises
    [AttributeError] with nothing written, and a step raises it after the
    one read, whatever value the monitor reported. *)
Theorem backlight_hours_read_only (s : Serial) :
  (forall v, set_value backlight_hours (Some v) None s = (Raise AttributeError, s))
  /\ (forall ud v s', getattr backlight_hours s = (Ok v, s') ->
        set_value backlight_hours None (Some ud) s = (Raise AttributeError, s')).
Proof.
  split; [reflexivity|]. intros ud v s' Hget.
  unfold set_value, bind at 1. rewrite Hget.
  destruct v as [z|m]; [reflexivity|]. exfalso.
  cbn [getattr] in Hget. unfold get_int, bind in Hget.
  destruct (query _ _ _ s) as [[[x|]|e] s0]; discriminate Hget.
Qed.

(** A step Up on a monitor that reports 1000 hours. *)
Lemma backlight_hours_read_only_witness :
  set_value backlight_hours None (Some UpDown.Up)
    (answering [0x6f; 0x37; 0x05; 0x02; 0x00; 0x04; 0x03; 0xe8; 0xb0])
  = (Raise AttributeError,
     mkSerial (fun _ => [0x6f; 0x37; 0x05; 0x02; 0x00; 0x04; 0x03; 0xe8; 0xb0])
              [[0x37; 0x51; 0x02; 0xeb; 0x04; 0x8b]]).
Proof.
  apply (proj2 (backlight_hours_read_only
                  (answering [0x6f; 0x37; 0x05; 0x02; 0x00; 0x04; 0x03; 0xe8; 0xb0]))
           UpDown.Up (VInt 1000)).
  reflexivity.
Defined.

(** X14: the PxP sub inputs cannot be set.  [set_pxp_sub_input] builds its
    data with [bytearray().join(win.value)], and the items of a bytes object
    are integers, which [join] does not take: for every window, whose value
    is not empty, and every value the call raises [TypeError] before
    anything is written; so do the setters of the four window properties. *)
Theorem pxp_sub_input_cannot_be_set (win : Enum) (n : attr) (v : pyval) (s : Serial) :
  value win <> [] ->
  In n [pxp_sub_input_win1; pxp_sub_input_win2; pxp_sub_input_win3; pxp_sub_input_win4] ->
  set_pxp_sub_input win v s = (Raise TypeError, s)
  /\ set_value n (Some v) None s = (Raise TypeError, s).
Proof.
  intros Hwin Hn. split.
  - unfold set_pxp_sub_input, bind, lift, join.
    destruct (value win); [contradiction | reflexivity].
  - cbn in Hn. destruct Hn as [<-|[<-|[<-|[<-|[]]]]]; reflexivity.
Qed.

(** Window 2 set to HDMI1. *)
Lemma pxp_sub_input_cannot_be_set_witness :
  set_pxp_sub_input Window.Window2 (VEnum VideoInput.HDMI1) (answering [])
  = (Raise TypeError, answering [])
  /\ set_value pxp_sub_input_win2 (Some (VEnum VideoInput.HDMI1)) None (answering [])
     = (Raise TypeError, answering []).
Proof.
  apply (pxp_sub_input_cannot_be_set Window.Window2 pxp_sub_input_win2).
  - discriminate.
  - cbn. tauto.
Defined.

(** X15: the PxP mode is decoded with [State].  When the monitor reports a
    PxP mode whose value is not also a value of [State], that is any mode
    but [Off] and [PIPSmall], reading [pxp_mode] raises [ValueError]. *)
Theorem pxp_mode_decoded_as_State (m : Enum) (s : Serial) :
  In m PxPMode.members ->
  ~ In (value m) (map value State.members) ->
  device s (written s ++ [cmd_frame ReadWrite.Read Command.PxPMode []])
  = reply_frame 0x70 (value m) ->
  get_value pxp_mode s
  = (Raise ValueError,
     mkSerial (device s) (written s ++ [cmd_frame ReadWrite.Read Command.PxPMode []])).
Proof.
  intros Hm Hnot Hdev. unfold get_value. cbn [getattr]. unfold get_enum, bind.
  rewrite (query_ok ReadWrite.Read Command.PxPMode []
             (cmd_frame ReadWrite.Read Command.PxPMode []) s eq_refl).
  rewrite Hdev. cbn in Hm.
  destruct Hm as [<-|[<-|[<-|[<-|[<-|[<-|[<-|[]]]]]]]];
    try reflexivity; exfalso; apply Hnot; cbn; tauto.
Qed.

(** A monitor in the mode [PBP2Windows]. *)
Lemma pxp_mode_decoded_as_State_witness :
  get_value pxp_mode (answering (reply_frame 0x70 [0x05]))
  = (Raise ValueError,
     mkSerial (fun _ => reply_frame 0x70 [0x05]) [[0x37; 0x51; 0x02; 0xeb; 0x70; 0xff]]).
Proof.
  apply (pxp_mode_decoded_as_State PxPMode.PBP2Windows (answering (reply_frame 0x70 [0x05]))).
  - cbn. tauto.
  - cbn. intros [H|[H|[]]]; discriminate H.
  - reflexivity.
Defined.

Lemma class_member_cls (c : string) (T : list Enum) (m : Enum) :
  In (c, T) enum_classes -> In m T -> cls m = c.
Proof.
  intros Hc Hm.
  assert (Hall : forallb (fun cT => forallb (fun m => String.eqb (cls m) (fst cT)) (snd cT))
                   enum_classes = true) by (vm_compute; reflexivity).
  rewrite forallb_forall in Hall. specialize (Hall _ Hc). cbn [fst snd] in Hall.
  rewrite forallb_forall in Hall. now apply String.eqb_eq, Hall.
Qed.

Lemma getitem_nonneg {A} (T : list A) (j : Z) :
  0 <= j < len T -> exists x, nth_error T (Z.to_nat j) = Some x /\ getitem T j = Ok x.
Proof.
  intros Hj. unfold getitem.
  destruct (j <? 0) eqn:E; [apply Z.ltb_lt in E; lia|]. rewrite E.
  destruct (nth_error T (Z.to_nat j)) as [x|] eqn:En.
  - exists x. split; reflexivity.
  - apply nth_error_None in En. unfold len in Hj. lia.
Qed.

(** X16: a step inside the declared order moves to the neighbour.  When the
    monitor reports the member at index [i] of its enumeration and [i] plus
    the step is an index of the enumeration, the step sets the property to
    the member at that index, by the property's own setter, and returns it
    when the setter returns. *)
Theorem step_enum_neighbour (n : attr) (m : Enum) (T : list Enum) (i : Z)
    (ud : UpDown.t) (s s' : Serial) :
  getattr n s = (Ok (VEnum m), s') ->
  lookup_class (cls m) = Ok T ->
  index T m = Ok i ->
  0 <= i + UpDown.value ud < len T ->
  exists m', nth_error T (Z.to_nat (i + UpDown.value ud)) = Some m'
             /\ set_value n None (Some ud) s
                = (_ <~ setattr n (VEnum m') ;; ret (VEnum m')) s'.
Proof.
  intros Hget HT Hi Hj.
  destruct (getitem_nonneg T _ Hj) as (m' & Hnth & Hitem).
  exists m'. split; [assumption|].
  unfold set_value, bind at 1. rewrite Hget.
  unfold lift at 1, eval_neighbour. rewrite HT. cbn [rbind]. rewrite Hi. cbn [rbind].
  rewrite Hitem. cbn [rbind]. unfold enum_call_member.
  rewrite (class_member_cls (cls m) T m').
  - rewrite String.eqb_refl. reflexivity.
  - now apply lookup_class_in.
  - eapply nth_error_In. exact Hnth.
Qed.

(** The OSD language stepped Up from French: German is written. *)
Lemma step_enum_neighbour_witness :
  exists m', nth_error Language.members (Z.to_nat (2 + UpDown.value UpDown.Up)) = Some m'
             /\ set_value osd_language None (Some UpDown.Up)
                  (answering [0x6f; 0x37; 0x04; 0x02; 0x00; 0x81; 0x02; 0xdd])
                = (_ <~ setattr osd_language (VEnum m') ;; ret (VEnum m'))
                    (mkSerial (fun _ => [0x6f; 0x37; 0x04; 0x02; 0x00; 0x81; 0x02; 0xdd])
                              [[0x37; 0x51; 0x02; 0xeb; 0x81; 0x0e]]).
Proof.
  apply (step_enum_neighbour osd_language Language.French Language.members 2 UpDown.Up
           (answering [0x6f; 0x37; 0x04; 0x02; 0x00; 0x81; 0x02; 0xdd])).
  - reflexivity.
  - reflexivity.
  - reflexivity.
  - vm_compute. split; [discriminate | reflexivity].
Defined.

(** * The colour record *)

Lemma percent_spec (v : Z) : percent v = true <-> 0 <= v < 100.
Proof. unfold percent. rewrite andb_true_iff, Z.leb_le, Z.ltb_lt. tauto. Qed.

Lemma set_red_ok (c c' : RGB) (v : Z) :
  set_red c v = Ok c' -> 0 <= v < 100 /\ c' = mkRGB (Some v) (Green c) (Blue c).
Proof.
  unfold set_red. destruct (percent v) eqn:E; [|discriminate].
  apply percent_spec in E. now intros [= <-].
Qed.

Lemma set_green_ok (c c' : RGB) (v : Z) :
  set_green c v = Ok c' -> 0 <= v < 100 /\ c' = mkRGB (Red c) (Some v) (Blue c).
Proof.
  unfold set_green. destruct (percent v) eqn:E; [|discriminate].
  apply percent_spec in E. now intros [= <-].
Qed.

Lemma set_blue_ok (c c' : RGB) (v : Z) :
  set_blue c v = Ok c' -> 0 <= v < 100 /\ c' = mkRGB (Red c) (Green c) (Some v).
Proof.
  unfold set_blue. destruct (percent v) eqn:E; [|discriminate].
  apply percent_spec in E. now intros [= <-].
Qed.

Lemma RGB_ok_set (c c' : RGB) (v : Z) :
  RGB_ok c ->
  set_red c v = Ok c' \/ set_green c v = Ok c' \/ set_blue c v = Ok c' ->
  RGB_ok c'.
Proof.
  intros (Hr & Hg & Hb) [H|[H|H]];
    [apply set_red_ok in H | apply set_green_ok in H | apply set_blue_ok in H];
    destruct H as [Hv ->]; unfold RGB_ok; cbn [Red Green Blue];
    (split; [|split]); intros w Hw; first [injection Hw as <-; assumption | eauto].
Qed.

Lemma RGB_ok_blank : RGB_ok (mkRGB None None None).
Proof. split; [|split]; intros v H; discriminate H. Qed.

(** X17: an [RGB] object keeps its channels in range.  Whatever arguments
    [RGB(...)] is built from, when it returns every channel that is set
    holds a value in [0, 100), and the three setters keep it so: a value
    outside the range is refused with [ValueError]. *)
Theorem RGB_channels_in_range :
  (forall red green blue rgb c, RGB_init red green blue rgb = Ok c -> RGB_ok c)
  /\ (forall c v c', RGB_ok c ->
        set_red c v = Ok c' \/ set_green c v = Ok c' \/ set_blue c v = Ok c' ->
        RGB_ok c')
  /\ (forall c v, ~ 0 <= v < 100 ->
        set_red c v = Raise ValueError /\ set_green c v = Raise ValueError
        /\ set_blue c v = Raise ValueError).
Proof.
  split; [|split].
  - intros red green blue rgb c. unfold RGB_init.
    set (c0 := mkRGB None None None). pose proof RGB_ok_blank as H0. fold c0 in H0.
    clearbody c0.
    destruct (match red with Some r => set_red c0 r | None => Ok c0 end) as [c1|e] eqn:E1;
      [|discriminate].
    assert (H1 : RGB_ok c1).
    { destruct red; [eapply RGB_ok_set; eauto | now injection E1 as <-]. }
    cbn [rbind].
    destruct (match green with Some g => set_green c1 g | None => Ok c1 end) as [c2|e] eqn:E2;
      [|discriminate].
    assert (H2 : RGB_ok c2).
    { destruct green; [eapply RGB_ok_set; eauto | now injection E2 as <-]. }
    cbn [rbind].
    destruct (match blue with Some b => set_blue c2 b | None => Ok c2 end) as [c3|e] eqn:E3;
      [|discriminate].
    assert (H3 : RGB_ok c3).
    { destruct blue; [eapply RGB_ok_set; eauto | now injection E3 as <-]. }
    cbn [rbind].
    destruct rgb as [d|]; [|now intros [= <-]].
    destruct (set_red c3 _) as [c4|e] eqn:E4; [|discriminate]. cbn [rbind].
    destruct (set_green c4 _) as [c5|e] eqn:E5; [|discriminate]. cbn [rbind].
    intros E6.
    eapply RGB_ok_set; [|right; right; exact E6].
    eapply RGB_ok_set; [|right; left; exact E5].
    eapply RGB_ok_set; [|left; exact E4]. assumption.
  - intros c v c'. apply RGB_ok_set.
  - intros c v Hv. unfold set_red, set_green, set_blue.
    destruct (percent v) eqn:E; [apply percent_spec in E; contradiction|].
    repeat split.
Qed.

(** X18: a colour round trips through its bytes.  For three channels in
    [0, 100), [RGB(r, g, b).to_bytes()] is the three bytes [r, g, b], and
    [RGB(rgb=...)] of these bytes is the colour again. *)
Theorem RGB_round_trip (r g b : Z) :
  0 <= r < 100 -> 0 <= g < 100 -> 0 <= b < 100 ->
  exists c, RGB_init (Some r) (Some g) (Some b) None = Ok c
            /\ RGB_to_bytes c = Ok [r; g; b]
            /\ RGB_init None None None (Some [r; g; b]) = Ok c.
Proof.
  intros Hr Hg Hb. exists (mkRGB (Some r) (Some g) (Some b)).
  apply percent_spec in Hr as Pr. apply percent_spec in Hg as Pg.
  apply percent_spec in Hb as Pb.
  split; [|split].
  - unfold RGB_init, set_red, set_green, set_blue. rewrite Pr. cbn.
    rewrite Pg. cbn. now rewrite Pb.
  - unfold RGB_to_bytes. cbn [Red Green Blue bytes_of_list]. unfold byteb.
    replace (0 <=? r) with true by (symmetry; apply Z.leb_le; lia).
    replace (r <? 256) with true by (symmetry; apply Z.ltb_lt; lia).
    replace (0 <=? g) with true by (symmetry; apply Z.leb_le; lia).
    replace (g <? 256) with true by (symmetry; apply Z.ltb_lt; lia).
    replace (0 <=? b) with true by (symmetry; apply Z.leb_le; lia).
    replace (b <? 256) with true by (symmetry; apply Z.ltb_lt; lia).
    reflexivity.
  - unfold RGB_init. cbn [rbind].
    change (slice [r; g; b] 0 1) with [r]. change (slice [r; g; b] 1 2) with [g].
    change (slice [r; g; b] 2 3) with [b]. rewrite !int_from_bytes_singleton.
    unfold set_red, set_green, set_blue. rewrite Pr. cbn. rewrite Pg. cbn. now rewrite Pb.
Qed.

(** The colour 10, 20, 30. *)
Lemma RGB_round_trip_witness :
  exists c, RGB_init (Some 10) (Some 20) (Some 30) None = Ok c
            /\ RGB_to_bytes c = Ok [10; 20; 30]
            /\ RGB_init None None None (Some [10; 20; 30]) = Ok c.
Proof. apply (RGB_round_trip 10 20 30); lia. Defined.

(** X19: what [RGB(rgb=...)] reads.  Only the first three bytes count and
    a missing byte counts as 0, since an empty slice converts to 0; with no
    bytes at all ([rgb=None], the result of a reply without payload) the
    object is built with no channel set, and [to_bytes] of a colour whose
    set channels are in range and one of whose channels is not set raises
    [TypeError]. *)
Theorem RGB_from_bytes_edges :
  (forall d, RGB_init None None None (Some d)
             = RGB_init None None None (Some (firstn 3 (d ++ [0; 0; 0]))))
  /\ RGB_init None None None None = Ok (mkRGB None None None)
  /\ (forall c, RGB_ok c -> Red c = None \/ Green c = None \/ Blue c = None ->
        RGB_to_bytes c = Raise TypeError).
Proof.
  split; [|split].
  - intros d. unfold RGB_init. cbn [rbind]. rewrite !slice_eq by lia.
    destruct d as [|x [|y [|z d']]]; reflexivity.
  - reflexivity.
  - intros [r g b] (Hr & Hg & Hb) H. cbn [Red Green Blue] in *.
    unfold RGB_to_bytes. cbn [Red Green Blue bytes_of_list].
    destruct r as [r|]; [|reflexivity].
    specialize (Hr r eq_refl). unfold byteb at 1.
    replace (0 <=? r) with true by (symmetry; apply Z.leb_le; lia).
    replace (r <? 256) with true by (symmetry; apply Z.ltb_lt; lia).
    cbn [andb negb].
    destruct g as [g|]; [|reflexivity].
    specialize (Hg g eq_refl). unfold byteb at 1.
    replace (0 <=? g) with true by (symmetry; apply Z.leb_le; lia).
    replace (g <? 256) with true by (symmetry; apply Z.ltb_lt; lia).
    cbn [andb negb].
    destruct b as [b|]; [|reflexivity].
    destruct H as [H|[H|H]]; discriminate H.
Qed.

(** A colour built from a keyword and from bytes, and one more channel
    set. *)
Lemma RGB_channels_in_range_witness :
  RGB_ok (mkRGB (Some 1) (Some 2) (Some 3))
  /\ RGB_ok (mkRGB (Some 1) (Some 99) (Some 3))
  /\ set_red (mkRGB None None None) 100 = Raise ValueError.
Proof.
  destruct RGB_channels_in_range as (Hinit & Hset & Hbad).
  split; [|split].
  - apply (Hinit (Some 10) None None (Some [1; 2; 3])). reflexivity.
  - apply (Hset (mkRGB (Some 1) (Some 2) (Some 3)) 99).
    + apply (Hinit (Some 10) None None (Some [1; 2; 3])). reflexivity.
    + right. left. reflexivity.
  - apply (Hbad (mkRGB None None None) 100). lia.
Defined.

(** The bytes of a 7-byte payload, two bytes only, and a colour without
    green. *)
Lemma RGB_from_bytes_edges_witness :
  RGB_init None None None (Some [1; 2; 3; 0; 0; 0; 0])
  = RGB_init None None None (Some [1; 2; 3])
  /\ RGB_init None None None (Some [1; 2]) = RGB_init None None None (Some [1; 2; 0])
  /\ RGB_to_bytes (mkRGB (Some 1) None (Some 3)) = Raise TypeError.
Proof.
  destruct RGB_from_bytes_edges as (Hcut & _ & Hunset).
  split; [|split].
  - apply (Hcut [1; 2; 3; 0; 0; 0; 0]).
  - apply (Hcut [1; 2]).
  - apply (Hunset (mkRGB (Some 1) None (Some 3))).
    + split; [|split]; intros v [= <-]; lia.
    + right. left. reflexivity.
Defined.

Lemma RGB_to_bytes_set (r g b : Z) :
  0 <= r < 100 -> 0 <= g < 100 -> 0 <= b < 100 ->
  RGB_to_bytes (mkRGB (Some r) (Some g) (Some b)) = Ok [r; g; b].
Proof.
  intros Hr Hg Hb. unfold RGB_to_bytes. cbn [Red Green Blue bytes_of_list]. unfold byteb.
  replace (0 <=? r) with true by (symmetry; apply Z.leb_le; lia).
  replace (r <? 256) with true by (symmetry; apply Z.ltb_lt; lia).
  replace (0 <=? g) with true by (symmetry; apply Z.leb_le; lia).
  replace (g <? 256) with true by (symmetry; apply Z.ltb_lt; lia).
  replace (0 <=? b) with true by (symmetry; apply Z.leb_le; lia).
  replace (b <? 256) with true by (symmetry; apply Z.ltb_lt; lia).
  reflexivity.
Qed.

Lemma RGB_init_bytes (r g b : Z) (pad : bytes) :
  0 <= r < 100 -> 0 <= g < 100 -> 0 <= b < 100 ->
  RGB_init None None None (Some (r :: g :: b :: pad))
  = Ok (mkRGB (Some r) (Some g) (Some b)).
Proof.
  intros Hr Hg Hb. apply percent_spec in Hr, Hg, Hb.
  unfold RGB_init. cbn [rbind]. rewrite !slice_eq by lia.
  change (firstn (Z.to_nat 1 - Z.to_nat 0) (skipn (Z.to_nat 0) (r :: g :: b :: pad)))
    with [r].
  change (firstn (Z.to_nat 2 - Z.to_nat 1) (skipn (Z.to_nat 1) (r :: g :: b :: pad)))
    with [g].
  change (firstn (Z.to_nat 3 - Z.to_nat 2) (skipn (Z.to_nat 2) (r :: g :: b :: pad)))
    with [b].
  rewrite !int_from_bytes_singleton.
  unfold set_red, set_green, set_blue. rewrite Hr. cbn. rewrite Hg. cbn. now rewrite Hb.
Qed.

(** X20: the custom colour on the wire.  For a colour with its three
    channels set, the setter writes one Write frame whose data are the three
    channel bytes, and returns when the reply validates; and when the reply
    to the getter's read carries a payload that starts with these three
    bytes, whatever follows them, the getter returns the colour. *)
Theorem custom_color_wire (r g b : Z) (pad : bytes) (s : Serial) :
  0 <= r < 100 -> 0 <= g < 100 -> 0 <= b < 100 ->
  set_custom_color (mkRGB (Some r) (Some g) (Some b)) s
  = write_result Command.CustomColor [r; g; b] s
  /\ (parse_reply Command.CustomColor
        (firstn 64 (device s (written s
           ++ [cmd_frame ReadWrite.Read Command.CustomColor []])))
      = Ok (Some (r :: g :: b :: pad)) ->
      get_custom_color s
      = (Ok (mkRGB (Some r) (Some g) (Some b)),
         mkSerial (device s)
                  (written s ++ [cmd_frame ReadWrite.Read Command.CustomColor []]))).
Proof.
  intros Hr Hg Hb. split.
  - unfold set_custom_color, write_result.
    rewrite RGB_to_bytes_set by assumption.
    change (bind (lift (Ok [r; g; b])) ?k s) with (k [r; g; b] s). unfold bind.
    rewrite (query_ok _ _ _ (cmd_frame ReadWrite.Write Command.CustomColor [r; g; b]) s).
    + destruct (parse_reply _ _); reflexivity.
    + apply build_cmd_ok; try reflexivity.
      * repeat (apply is_bytes_cons; split; [lia|]). reflexivity.
      * vm_compute. discriminate.
  - intros Hreply. unfold get_custom_color, bind.
    rewrite (query_ok ReadWrite.Read Command.CustomColor []
               (cmd_frame ReadWrite.Read Command.CustomColor []) s eq_refl).
    rewrite Hreply. unfold lift. now rewrite RGB_init_bytes.
Qed.

(** The colour 10, 20, 30 sent, and read from a reply of seven data
    bytes. *)
Lemma custom_color_wire_witness :
  snd (set_custom_color (mkRGB (Some 10) (Some 20) (Some 30)) (answering []))
  = mkSerial (fun _ => []) [[0x37; 0x51; 0x05; 0xea; 0x49; 10; 20; 30; 0xc0]]
  /\ fst (get_custom_color
            (answering (reply_frame 0x49 [10; 20; 30; 0; 0; 0; 0])))
     = Ok (mkRGB (Some 10) (Some 20) (Some 30)).
Proof.
  split.
  - rewrite (proj1 (custom_color_wire 10 20 30 [] (answering [])
               ltac:(lia) ltac:(lia) ltac:(lia))).
    reflexivity.
  - rewrite (proj2 (custom_color_wire 10 20 30 [0; 0; 0; 0]
               (answering (reply_frame 0x49 [10; 20; 30; 0; 0; 0; 0]))
               ltac:(lia) ltac:(lia) ltac:(lia))); reflexivity.
Defined.

(** * Actions and the opcode search *)

(** X21: the four resets are sent before their reply is looked at.  Each
    writes one Write frame of its opcode without data; it returns when the
    reply validates, whatever payload it carries, and raises the error of
    the reply otherwise, with the command already on the wire. *)
Theorem reset_is_one_exchange (action : M unit) (cmd : Enum) (s : Serial) :
  In (action, cmd)
     [(reset_power, Command.ResetPower); (reset_color, Command.ResetColor);
      (reset_osd, Command.ResetOSD); (factory_reset, Command.FactoryReset)] ->
  action s = write_result cmd [] s
  /\ written (snd (action s)) = written s ++ [cmd_frame ReadWrite.Write cmd []].
Proof.
  intros Hin.
  assert (H : action s = write_result cmd [] s).
  { cbn in Hin. destruct Hin as [E|[E|[E|[E|[]]]]]; injection E as <- <-;
      unfold reset_power, reset_color, reset_osd, factory_reset, bind, write_result;
      match goal with
      | |- context [query ReadWrite.Write ?c []] =>
          rewrite (query_ok ReadWrite.Write c [] (cmd_frame ReadWrite.Write c []) s eq_refl)
      end;
      destruct (parse_reply _ _); reflexivity. }
  split; [assumption|]. rewrite H. reflexivity.
Qed.

(** The factory reset on a port with a silent monitor: the command is
    written and the empty reply raises [HeaderError]. *)
Lemma reset_is_one_exchange_witness :
  factory_reset (answering [])
  = (Raise HeaderError, mkSerial (fun _ => []) [[0x37; 0x51; 0x02; 0xea; 0xaf; 0x21]]).
Proof.
  rewrite (proj1 (reset_is_one_exchange factory_reset Command.FactoryReset (answering [])
             ltac:(cbn; tauto))).
  reflexivity.
Defined.

Lemma parse_reply_bytes_error (cmd : Enum) (reply : bytes) (e : exn) :
  is_bytes reply -> parse_reply cmd reply = Raise e -> is_P4317qError e = true.
Proof.
  intros Hb. unfold parse_reply.
  rewrite calc_check_sum_bytes by now apply is_bytes_slice. cbn [rbind].
  repeat match goal with
         | |- context [if negb ?c then _ else _] => destruct c; cbn [negb]
         end;
    intros [= <-]; reflexivity.
Qed.

Lemma probe_built (c : Z) :
  0 <= c < 256 ->
  build_cmd ReadWrite.Read (FakeCommand [c]) [] = Ok (probe_frame c).
Proof.
  intros Hc. apply build_cmd_ok; try reflexivity.
  - apply is_bytes_cons. split; [lia | reflexivity].
  - vm_compute. discriminate.
Qed.

(** The loop of [search_func]: every opcode is probed, in order, and an
    opcode gets a line exactly when the reply to its probe decodes. *)
Lemma search_loop_spec (cs : list Z) :
  forall (out : list (Z * option bytes)) (s : Serial),
  (forall c, In c cs -> 0 <= c < 256) ->
  (forall w, is_bytes (device s w)) ->
  exists out',
    search_loop cs out s
    = (Ok out', mkSerial (device s) (written s ++ map probe_frame cs))
    /\ forall c x,
         In (c, x) out' <->
         In (c, x) out
         \/ exists pre post,
              cs = pre ++ c :: post
              /\ parse_reply (FakeCommand [c])
                   (firstn 64 (device s (written s ++ map probe_frame (pre ++ [c]))))
                 = Ok x.
Proof.
  induction cs as [|c0 cs IH]; intros out s Hcs Hdev.
  - exists out. split.
    + cbn. now rewrite app_nil_r; destruct s.
    + intros c x. split; [now left|]. intros [H|(pre & post & E & _)]; [assumption|].
      destruct pre; discriminate E.
  - cbn [search_loop]. unfold bind at 1, try_except, bind at 1.
    rewrite (query_ok _ _ _ _ s (probe_built c0 (Hcs c0 (or_introl eq_refl)))).
    set (s1 := mkSerial (device s) (written s ++ [probe_frame c0])).
    set (reply := firstn 64 (device s (written s ++ [probe_frame c0]))).
    assert (Hreply : is_bytes reply) by (apply is_bytes_firstn, Hdev).
    assert (Hcs' : forall c, In c cs -> 0 <= c < 256) by (intros c Hc; apply Hcs; now right).
    assert (Hw : forall l, written s ++ [probe_frame c0] ++ map probe_frame l
                           = written s ++ map probe_frame (c0 :: l)) by reflexivity.
    destruct (parse_reply (FakeCommand [c0]) reply) as [x0|e] eqn:E.
    + cbn [ret]. destruct (IH (out ++ [(c0, x0)]) s1 Hcs' Hdev) as (out' & Hrun & Hout).
      exists out'. split.
      * rewrite Hrun. cbn [s1 device written]. now rewrite <- app_assoc.
      * intros c x. rewrite Hout. cbn [s1 device written]. split.
        -- intros [H|(pre & post & -> & H)].
           ++ apply in_app_or in H as [H|[H|[]]]; [now left|].
              injection H as <- <-. right. exists [], cs. split; [reflexivity|]. exact E.
           ++ right. exists (c0 :: pre), post. split; [reflexivity|].
              rewrite <- app_assoc in H. exact H.
        -- intros [H|(pre & post & Hsplit & H)].
           ++ left. apply in_or_app. now left.
           ++ destruct pre as [|c1 pre]; injection Hsplit as <- ->.
              ** left. apply in_or_app. right. left. f_equal.
                 change (map probe_frame ([] ++ [c0])) with [probe_frame c0] in H.
                 fold reply in H. congruence.
              ** right. exists pre, post. split; [reflexivity|].
                 rewrite <- app_assoc. exact H.
    + rewrite (parse_reply_bytes_error _ _ _ Hreply E). cbn [ret].
      destruct (IH out s1 Hcs' Hdev) as (out' & Hrun & Hout).
      exists out'. split.
      * rewrite Hrun. cbn [s1 device written]. now rewrite <- app_assoc.
      * intros c x. rewrite Hout. cbn [s1 device written]. split.
        -- intros [H|(pre & post & -> & H)]; [now left|].
           right. exists (c0 :: pre), post. split; [reflexivity|].
           rewrite <- app_assoc in H. exact H.
        -- intros [H|(pre & post & Hsplit & H)]; [now left|].
           destruct pre as [|c1 pre]; injection Hsplit as <- ->.
           ++ change (map probe_frame ([] ++ [c0])) with [probe_frame c0] in H.
                 fold reply in H. congruence.
           ++ right. exists pre, post. split; [reflexivity|].
              rewrite <- app_assoc. exact H.
Qed.

(** X22: the opcode search.  On a port whose monitor sends bytes,
    [search_func] never raises: it writes the Read probes of the 255
    opcodes 0 to 254, in this order and nothing else, opcode [0xff] is never
    probed, and it prints a line for an opcode exactly when the reply to
    that opcode's probe, read after the probes of the opcodes before it,
    decodes; the line carries the decoded data. *)
Theorem search_func_spec (s : Serial) :
  (forall w, is_bytes (device s w)) ->
  exists out,
    search_func s
    = (Ok out, mkSerial (device s) (written s ++ map probe_frame search_range))
    /\ List.length search_range = 255%nat
    /\ ~ In 0xff search_range
    /\ forall c x,
         In (c, x) out <->
         exists pre post,
           search_range = pre ++ c :: post
           /\ parse_reply (FakeCommand [c])
                (firstn 64 (device s (written s ++ map probe_frame (pre ++ [c]))))
              = Ok x.
Proof.
  intros Hdev.
  assert (Hrange : forall c, In c search_range -> 0 <= c < 255).
  { intros c Hc. unfold search_range in Hc. apply in_map_iff in Hc as (k & <- & Hk).
    apply in_seq in Hk. lia. }
  destruct (search_loop_spec search_range [] s) as (out & Hrun & Hout).
  { intros c Hc. specialize (Hrange c Hc). lia. }
  { exact Hdev. }
  exists out. split; [exact Hrun|]. split; [reflexivity|]. split.
  - intros H. specialize (Hrange _ H). lia.
  - intros c x. rewrite Hout. split.
    + intros [[]|H]. exact H.
    + intros H. now right.
Qed.

(** A monitor that answers every probe with the reply
    [6F 37 02 02 00 58]: the search prints one line, for opcode [0x58]. *)
Lemma search_func_spec_witness :
  exists out,
    search_func (answering [0x6f; 0x37; 0x02; 0x02; 0x00; 0x58])
    = (Ok out,
       mkSerial (fun _ => [0x6f; 0x37; 0x02; 0x02; 0x00; 0x58])
                (map probe_frame search_range))
    /\ List.length search_range = 255%nat
    /\ ~ In 0xff search_range
    /\ forall c x,
         In (c, x) out <->
         exists pre post,
           search_range = pre ++ c :: post
           /\ parse_reply (FakeCommand [c])
                (firstn 64 [0x6f; 0x37; 0x02; 0x02; 0x00; 0x58])
              = Ok x.
Proof.
  apply (search_func_spec (answering [0x6f; 0x37; 0x02; 0x02; 0x00; 0x58])).
  intros w. reflexivity.
Defined.

(** The power state [Off], the first member of [State], stepped Down: [On]
    is written. *)
Lemma step_down_at_first_wraps_witness :
  exists l, is_last l /\ cls l = cls State.Off
            /\ set_value power_state None (Some UpDown.Down)
                 (answering [0x6f; 0x37; 0x04; 0x02; 0x00; 0x20; 0x00; 0x7e])
               = (_ <~ setattr power_state (VEnum l) ;; ret (VEnum l))
                   (mkSerial (fun _ => [0x6f; 0x37; 0x04; 0x02; 0x00; 0x20; 0x00; 0x7e])
                             [[0x37; 0x51; 0x02; 0xeb; 0x20; 0xaf]]).
Proof.
  apply (step_down_at_first_wraps power_state State.Off
           (answering [0x6f; 0x37; 0x04; 0x02; 0x00; 0x20; 0x00; 0x7e])).
  - reflexivity.
  - exists State.members. split; reflexivity.
Defined.
